(** * Version information registry and reporter (mongo/util/version.cpp)

    A shallow embedding of [VersionInfoInterface] and of the free functions of
    [src/mongo/util/version.cpp]: the process-wide registry ([enable],
    [instance]), the version comparator ([isSameMajorVersion]), the build-info
    report ([appendBuildInfo]), the build-info log record ([logBuildInfo]) and
    the front-end version strings. *)

From Stdlib Require Import ZArith String Ascii List Bool Lia.
From stdpp Require Import base gmap strings list.

Open Scope string_scope.
Open Scope list_scope.
Open Scope Z_scope.

(** ** Data model *)

(** [VersionInfoInterface::BuildInfoField]: one build-environment fact. *)
Record BuildInfoField := {
  key : string;
  value : string;
  inBuildInfo : bool
}.

(** An object implementing [VersionInfoInterface].  Every pure virtual member
    is a [const] method without arguments, so an object is the record of what
    its methods return.  [int] results are kept as [Z]. *)
Record VersionInfoInterface := {
  majorVersion : Z;
  minorVersion : Z;
  patchVersion : Z;
  extraVersion : Z;
  version : string;
  gitVersion : string;
  modules : list string;
  allocator : string;
  jsEngine : string;
  targetMinOS : string;
  buildInfo : list BuildInfoField
}.

(** [class FallbackVersionInfo : public VersionInfoInterface]. *)
Definition FallbackVersionInfo : VersionInfoInterface := {|
  majorVersion := 0;
  minorVersion := 0;
  patchVersion := 0;
  extraVersion := 0;
  version := "unknown";
  gitVersion := "none";
  modules := ["unknown"];
  allocator := "unknown";
  jsEngine := "unknown";
  targetMinOS := "unknown";
  buildInfo := []
|}.

(** ** Process state *)

(** Addresses of objects, and [const VersionInfoInterface*]. *)
Definition loc := positive.

Inductive pointer :=
| nullptr
| Ptr (l : loc).

#[global] Instance pointer_eq_dec : EqDecision pointer.
Proof. solve_decision. Defined.

(** [enum class NotEnabledAction { kAbortProcess, kFallback }].  The source
    only names [kFallback]; every other value of the enumeration takes the
    fatal path, so the second constructor stands for it. *)
Inductive NotEnabledAction :=
| kAbortProcess
| kFallback.

(** Documents as [BSONObjBuilder] produces them: fields in append order,
    duplicate names kept. *)
#[warnings="-register-all"] Inductive BSONValue :=
| BString (s : string)
| BInt (n : Z)
| BBool (b : bool)
| BArray (elems : list BSONValue)
| BObject (fields : list (string * BSONValue)).

Definition BSONObj := list (string * BSONValue).

(** Records written by the logging macros. *)
Inductive LogSeverity :=
| Severity_Log
| Severity_Severe.

Inductive LogAttr :=
| AttrString (s : string)
| AttrStringSeq (l : list string)
| AttrObjSeq (l : list BSONObj).

Record LogRecord := {
  log_id : Z;
  log_severity : LogSeverity;
  log_message : string;
  log_attrs : list (string * LogAttr)
}.

(** The part of the process the translation unit reads and writes: the heap of
    provider objects, the file-local [globalVersionInfo], the function-local
    static [fallbackVersionInfo] of [instance] ([None] until its initialiser
    has run) and the log written so far. *)
Record Process := {
  heap : gmap loc VersionInfoInterface;
  globalVersionInfo : pointer;
  fallbackVersionInfo : option loc;
  log : list LogRecord
}.

(** State at program start: [globalVersionInfo = nullptr], the local static
    not yet initialised, nothing logged; [h] holds the objects of the host. *)
Definition startup (h : gmap loc VersionInfoInterface) : Process := {|
  heap := h;
  globalVersionInfo := nullptr;
  fallbackVersionInfo := None;
  log := []
|}.

(** A call either returns a value and the next state, or ends the process. *)
Inductive Outcome (A : Type) :=
| Returned (a : A) (s : Process)
| Terminated (msgid : Z) (s : Process).
Arguments Returned {A} a s.
Arguments Terminated {A} msgid s.

Definition M (A : Type) : Type := Process -> Outcome A.

Definition ret {A} (a : A) : M A := fun s => Returned a s.

Definition bind {A B} (m : M A) (f : A -> M B) : M B :=
  fun s =>
    match m s with
    | Returned a s' => f a s'
    | Terminated id s' => Terminated id s'
    end.

Notation "x <- m ;; k" := (bind m (fun x => k))
  (at level 100, m at next level, right associativity).
Notation "m ;;; k" := (bind m (fun _ => k))
  (at level 100, right associativity).

(** Modelled from the spec: the logging macros of mongo/logv2/log.h are not
    part of the sources.  [LOGV2] and [LOGV2_FATAL] append one record to the
    log, the latter with severity Severe (the diagnostic message of the fatal
    path). *)
Definition LOGV2 (id : Z) (msg : string) (attrs : list (string * LogAttr)) : M unit :=
  fun s =>
    Returned tt {| heap := heap s;
                   globalVersionInfo := globalVersionInfo s;
                   fallbackVersionInfo := fallbackVersionInfo s;
                   log := log s ++ [{| log_id := id; log_severity := Severity_Log;
                                       log_message := msg; log_attrs := attrs |}] |}.

Definition LOGV2_FATAL (id : Z) (msg : string) : M unit :=
  fun s =>
    Returned tt {| heap := heap s;
                   globalVersionInfo := globalVersionInfo s;
                   fallbackVersionInfo := fallbackVersionInfo s;
                   log := log s ++ [{| log_id := id; log_severity := Severity_Severe;
                                       log_message := msg; log_attrs := [] |}] |}.

(** Modelled from the spec: [fassertFailed] of mongo/util/assert_util.h is not
    part of the sources.  It terminates the process and never returns. *)
Definition fassertFailed {A} (msgid : Z) : M A :=
  fun s => Terminated msgid s.

(** [new FallbackVersionInfo]: the object is placed at an unused address. *)
Definition new_FallbackVersionInfo : M loc :=
  fun s =>
    let l := fresh (dom (heap s)) in
    Returned l {| heap := <[l := FallbackVersionInfo]> (heap s);
                  globalVersionInfo := globalVersionInfo s;
                  fallbackVersionInfo := fallbackVersionInfo s;
                  log := log s |}.

(** [static const auto& fallbackVersionInfo = *new FallbackVersionInfo;]
    the initialiser runs the first time control passes the declaration. *)
Definition static_fallbackVersionInfo : M loc :=
  fun s =>
    match fallbackVersionInfo s with
    | Some l => Returned l s
    | None =>
        match new_FallbackVersionInfo s with
        | Returned l s' =>
            Returned l {| heap := heap s';
                          globalVersionInfo := globalVersionInfo s';
                          fallbackVersionInfo := Some l;
                          log := log s' |}
        | Terminated id s' => Terminated id s'
        end
    end.

(** ** Registry *)

(** [void VersionInfoInterface::enable(const VersionInfoInterface* handler)] *)
Definition enable (handler : pointer) : M unit :=
  fun s =>
    Returned tt {| heap := heap s;
                   globalVersionInfo := handler;
                   fallbackVersionInfo := fallbackVersionInfo s;
                   log := log s |}.

(** [const VersionInfoInterface& VersionInfoInterface::instance(NotEnabledAction)]
    The reference returned is the address of the object. *)
Definition instance (action : NotEnabledAction) : M loc :=
  fun s =>
    match globalVersionInfo s with
    | Ptr l => Returned l s
    | nullptr =>
        match action with
        | kFallback => static_fallbackVersionInfo s
        | _ =>
            (LOGV2_FATAL 23405 "Terminating because valid version info has not been configured" ;;;
             fassertFailed 40278) s
        end
    end.

(** Calls a host can make on the registry, and the run of a sequence of them.
    The run records, for every [instance] call, the value of
    [globalVersionInfo] the call found and the reference it returned. *)
Inductive Call :=
| CallEnable (handler : pointer)
| CallInstance (action : NotEnabledAction).

Fixpoint run (calls : list Call) : M (list (pointer * loc)) :=
  match calls with
  | [] => ret []
  | CallEnable handler :: rest => enable handler ;;; run rest
  | CallInstance action :: rest =>
      fun s =>
        (r <- instance action ;;
         t <- run rest ;;
         ret ((globalVersionInfo s, r) :: t)) s
  end.

(** ** Build configuration *)

(** The values of [MONGO_CONFIG_SSL_PROVIDER] the source accepts; any other
    value stops the build at [#error "Unknown SSL Provider"]. *)
Inductive SSLProvider :=
| MONGO_CONFIG_SSL_PROVIDER_OPENSSL
| MONGO_CONFIG_SSL_PROVIDER_WINDOWS
| MONGO_CONFIG_SSL_PROVIDER_APPLE.

(** Width of [long] on the target: 64 bits (LP64) or 32 bits (LLP64). *)
Inductive DataModel :=
| LP64
| LLP64.

(** What the preprocessor, the compiler and the headers outside the sources
    fix for one build: [MONGO_CONFIG_SSL] is [None] when the macro is not
    defined; [OPENSSL_VERSION_TEXT] and [SSLeay_version] are the compiled and
    the running OpenSSL version texts; [sizeof_void_ptr] is [sizeof(void* )]. *)
Record BuildConfig := {
  _WIN32 : bool;
  MONGO_CONFIG_SSL : option SSLProvider;
  OPENSSL_VERSION_TEXT : string;
  SSLeay_version : string;
  sizeof_void_ptr : Z;
  kDebugBuild : bool;
  BSONObjMaxUserSize : Z;
  data_model : DataModel
}.

Definition INT_MAX : Z := 2147483647.
Definition INT_MIN : Z := -2147483648.

Definition LONG_MAX (cfg : BuildConfig) : Z :=
  match data_model cfg with
  | LP64 => 9223372036854775807
  | LLP64 => 2147483647
  end.

Definition LONG_MIN (cfg : BuildConfig) : Z := - LONG_MAX cfg - 1.

(** ** Front-end strings *)

(** [std::string VersionInfoInterface::makeVersionString(StringData binaryName)] *)
Definition makeVersionString (self : VersionInfoInterface) (binaryName : string) : string :=
  binaryName +:+ " v" +:+ version self.

Definition mongoShellVersion (provider : VersionInfoInterface) : string :=
  "MongoDB shell version v" +:+ version provider.

Definition mongosVersion (provider : VersionInfoInterface) : string :=
  "mongos version v" +:+ version provider.

Definition mongodVersion (provider : VersionInfoInterface) : string :=
  "db version v" +:+ version provider.

(** ** Report *)

(** The builder holds the fields appended so far; [append] is both
    [operator<<] with a field name and [BSONObjBuilder::append]. *)
Definition BSONObjBuilder := BSONObj.

Definition append (b : BSONObjBuilder) (name : string) (v : BSONValue) : BSONObjBuilder :=
  b ++ [(name, v)].

(** [BSONObj::getField]: the first field of that name. *)
Fixpoint getField (o : BSONObj) (name : string) : option BSONValue :=
  match o with
  | [] => None
  | (k, v) :: rest => if String.eqb k name then Some v else getField rest name
  end.

Definition fieldNames (o : BSONObj) : list string := map fst o.

(** [std::string VersionInfoInterface::openSSLVersion(StringData prefix, StringData suffix)] *)
Definition openSSLVersion (cfg : BuildConfig) (prefix suffix : string) : string :=
  match MONGO_CONFIG_SSL cfg with
  | Some MONGO_CONFIG_SSL_PROVIDER_OPENSSL => prefix +:+ SSLeay_version cfg +:+ suffix
  | _ => ""
  end.

(** [void VersionInfoInterface::appendBuildInfo(BSONObjBuilder* result)].
    [openSSLVersion()] is called with the defaults of its declaration, two
    empty strings. *)
Definition appendBuildInfo (cfg : BuildConfig) (self : VersionInfoInterface)
    (result : BSONObjBuilder) : BSONObjBuilder :=
  let result := append result "version" (BString (version self)) in
  let result := append result "gitVersion" (BString (gitVersion self)) in
  let result :=
    if _WIN32 cfg then append result "targetMinOS" (BString (targetMinOS self))
    else result in
  let result := append result "modules" (BArray (map BString (modules self))) in
  let result := append result "allocator" (BString (allocator self)) in
  let result := append result "javascriptEngine" (BString (jsEngine self)) in
  let result := append result "sysInfo" (BString "deprecated") in
  let versionArray :=
    [BInt (majorVersion self); BInt (minorVersion self);
     BInt (patchVersion self); BInt (extraVersion self)] in
  let result := append result "versionArray" (BArray versionArray) in
  let opensslInfo : BSONObjBuilder :=
    match MONGO_CONFIG_SSL cfg with
    | Some MONGO_CONFIG_SSL_PROVIDER_OPENSSL =>
        append (append [] "running" (BString (openSSLVersion cfg "" "")))
               "compiled" (BString (OPENSSL_VERSION_TEXT cfg))
    | Some MONGO_CONFIG_SSL_PROVIDER_WINDOWS =>
        append [] "running" (BString "Windows SChannel")
    | Some MONGO_CONFIG_SSL_PROVIDER_APPLE =>
        append [] "running" (BString "Apple Secure Transport")
    | None =>
        append (append [] "running" (BString "disabled"))
               "compiled" (BString "disabled")
    end in
  let result := append result "openssl" (BObject opensslInfo) in
  let env : BSONObjBuilder :=
    fold_left
      (fun env e => if inBuildInfo e then append env (key e) (BString (value e)) else env)
      (buildInfo self) [] in
  let result := append result "buildEnvironment" (BObject env) in
  let result := append result "bits" (BInt (sizeof_void_ptr cfg * 8)) in
  let result := append result "debug" (BBool (kDebugBuild cfg)) in
  append result "maxBsonObjectSize" (BInt (BSONObjMaxUserSize cfg)).

(** ** Log records *)

(** [StringData::empty] *)
Definition empty (s : string) : bool :=
  match s with
  | EmptyString => true
  | String _ _ => false
  end.

(** [logv2::DynamicAttributes::add] *)
Definition add (attrs : list (string * LogAttr)) (name : string) (v : LogAttr) :
    list (string * LogAttr) :=
  attrs ++ [(name, v)].

(** [void VersionInfoInterface::logTargetMinOS()] *)
Definition logTargetMinOS (self : VersionInfoInterface) : M unit :=
  LOGV2 23398 "Target operating system minimum version"
        [("targetMinOS", AttrString (targetMinOS self))].

(** The lambdas of [logBuildInfo]. *)
Definition envFilter (bi : BuildInfoField) : bool :=
  inBuildInfo bi && negb (empty (value bi)).

Definition envFormatter (bi : BuildInfoField) : BSONObj :=
  append [] (key bi) (BString (value bi)).

(** [void VersionInfoInterface::logBuildInfo()] *)
Definition logBuildInfo (cfg : BuildConfig) (self : VersionInfoInterface) : M unit :=
  let attrs := [] in
  let attrs := add attrs "version" (AttrString (version self)) in
  let attrs := add attrs "gitVersion" (AttrString (gitVersion self)) in
  let attrs :=
    match MONGO_CONFIG_SSL cfg with
    | Some MONGO_CONFIG_SSL_PROVIDER_OPENSSL =>
        let opensslVersion := openSSLVersion cfg "" "" in
        add attrs "openSSLVersion" (AttrString opensslVersion)
    | _ => attrs
    end in
  let attrs := add attrs "allocator" (AttrString (allocator self)) in
  let modules_list := modules self in
  let attrs := add attrs "modules" (AttrStringSeq modules_list) in
  let build := buildInfo self in
  let buildEnv := map envFormatter (List.filter envFilter build) in
  let attrs := add attrs "environment" (AttrObjSeq buildEnv) in
  LOGV2 23403 "Build Info" attrs.

(** The attribute of that name in a log record. *)
Fixpoint getAttr (attrs : list (string * LogAttr)) (name : string) : option LogAttr :=
  match attrs with
  | [] => None
  | (k, v) :: rest => if String.eqb k name then Some v else getAttr rest name
  end.

(** ** Version comparator *)

(** The subject text is a [const char*]: it ends at the first NUL. *)
Fixpoint c_str (s : string) : string :=
  match s with
  | EmptyString => EmptyString
  | String c rest => if Ascii.eqb c zero then EmptyString else String c (c_str rest)
  end.

Definition isdigit (c : ascii) : bool :=
  (48 <=? nat_of_ascii c)%nat && (nat_of_ascii c <=? 57)%nat.

Definition isspace (c : ascii) : bool :=
  ((9 <=? nat_of_ascii c)%nat && (nat_of_ascii c <=? 13)%nat) || (nat_of_ascii c =? 32)%nat.

Definition digit_value (c : ascii) : Z := Z.of_nat (nat_of_ascii c) - 48.

(** Modelled from the spec: pcrecpp is a library outside the sources.  This
    is the part of it [isSameMajorVersion] uses: patterns built from the
    start anchor, one-character items, greedy repetition of such an item,
    numbered capturing groups and sequencing; a backtracking matcher that
    searches for the first match; and the conversion of a captured range into
    an [int], which fails when the number does not fit. *)
Module pcrecpp.

Inductive CharClass :=
| Lit (c : ascii)
| Digit.

Inductive RE :=
| Bol
| Chr (cls : CharClass)
| Plus (cls : CharClass)
| Group (n : nat) (r : RE)
| Seq (r1 r2 : RE).

Definition class_matches (cls : CharClass) (c : ascii) : bool :=
  match cls with
  | Lit c' => Ascii.eqb c c'
  | Digit => isdigit c
  end.

(** Offsets [(start, limit)] of the groups matched so far. *)
Abbreviation Captures := (gmap nat (nat * nat)).

(** What remains to be matched after an item: called with the rest of the
    subject, its offset and the groups set so far. *)
Definition Cont := string -> nat -> Captures -> option Captures.

(** Greedy [x+]: take one more character when possible, and give characters
    back, one at a time, when the rest of the pattern fails. *)
Fixpoint plus_loop (cls : CharClass) (rest : string) (pos : nat) (caps : Captures)
    (k : Cont) : option Captures :=
  match rest with
  | EmptyString => None
  | String c rest' =>
      if class_matches cls c then
        match plus_loop cls rest' (S pos) caps k with
        | Some r => Some r
        | None => k rest' (S pos) caps
        end
      else None
  end.

Fixpoint exec (r : RE) (rest : string) (pos : nat) (caps : Captures) (k : Cont) :
    option Captures :=
  match r with
  | Bol => if (pos =? 0)%nat then k rest pos caps else None
  | Chr cls =>
      match rest with
      | EmptyString => None
      | String c rest' => if class_matches cls c then k rest' (S pos) caps else None
      end
  | Plus cls => plus_loop cls rest pos caps k
  | Group n r' =>
      exec r' rest pos caps (fun rest' pos' caps' => k rest' pos' (<[n := (pos, pos')]> caps'))
  | Seq r1 r2 =>
      exec r1 rest pos caps (fun rest' pos' caps' => exec r2 rest' pos' caps' k)
  end.

(** Unanchored search: the first start offset at which the pattern matches.
    Group 0 is the whole match. *)
Fixpoint search (r : RE) (rest : string) (pos : nat) : option Captures :=
  match exec r rest pos ∅ (fun _ pos' caps => Some (<[0%nat := (pos, pos')]> caps)) with
  | Some vec => Some vec
  | None =>
      match rest with
      | EmptyString => None
      | String _ rest' => search r rest' (S pos)
      end
  end.

Definition TryMatch (r : RE) (text : string) : option Captures := search r text 0.

Fixpoint NumberOfCapturingGroups (r : RE) : nat :=
  match r with
  | Group _ r' => S (NumberOfCapturingGroups r')
  | Seq r1 r2 => (NumberOfCapturingGroups r1 + NumberOfCapturingGroups r2)%nat
  | _ => 0%nat
  end.

(** [strtol] in base 10 on a text that does not start with white space: an
    optional sign, then the longest run of digits.  The result is the value,
    the number of characters used (0 when there is no digit) and whether
    [errno] was set because the value does not fit a [long]. *)
Fixpoint strtol_digits (s : string) (acc : Z) : Z * nat :=
  match s with
  | EmptyString => (acc, 0%nat)
  | String c rest =>
      if isdigit c then
        let '(v, n) := strtol_digits rest (acc * 10 + digit_value c) in (v, S n)
      else (acc, 0%nat)
  end.

Definition strtol (cfg : BuildConfig) (s : string) : Z * nat * bool :=
  let '(neg, body, off) :=
    match s with
    | String c rest =>
        if Ascii.eqb c "-" then (true, rest, 1%nat)
        else if Ascii.eqb c "+" then (false, rest, 1%nat)
        else (false, s, 0%nat)
    | EmptyString => (false, s, 0%nat)
    end in
  let '(v, n) := strtol_digits body 0 in
  if (n =? 0)%nat then (0, 0%nat, false)
  else
    let v := if neg then - v else v in
    if LONG_MAX cfg <? v then (LONG_MAX cfg, (off + n)%nat, true)
    else if v <? LONG_MIN cfg then (LONG_MIN cfg, (off + n)%nat, true)
    else (v, (off + n)%nat, false).

Definition kMaxNumberLength : nat := 32.

(** The character at [text[limit]] "may look like a digit". *)
Definition looks_like_digit (c : option ascii) : bool :=
  match c with
  | None => false
  | Some c =>
      isdigit c
      || ((97 <=? nat_of_ascii c)%nat && (nat_of_ascii c <=? 102)%nat)
      || ((65 <=? nat_of_ascii c)%nat && (nat_of_ascii c <=? 70)%nat)
  end.

(** [Arg::parse_long] on the range [start, limit) of [text]: no empty range,
    no leading white space, a range followed by a digit-like character is
    copied first and must fit the buffer, [strtol] must use the whole range
    and must not overflow. *)
Definition parse_long (cfg : BuildConfig) (text : string) (start limit : nat) : option Z :=
  let n := (limit - start)%nat in
  let str := substring start n text in
  if (n =? 0)%nat then None
  else if match str with String c _ => isspace c | EmptyString => false end then None
  else if looks_like_digit (get limit text) && (kMaxNumberLength <? n)%nat then None
  else
    let '(r, used, errno) := strtol cfg str in
    if negb (used =? n)%nat then None
    else if errno then None
    else Some r.

(** [Arg::parse_int] *)
Definition parse_int (cfg : BuildConfig) (text : string) (start limit : nat) : option Z :=
  match parse_long cfg text start limit with
  | None => None
  | Some r => if (r <? INT_MIN) || (INT_MAX <? r) then None else Some r
  end.

(** The conversion of group [i]; a group that did not take part in the match
    has the empty range, which no [int] parses. *)
Definition Parse (cfg : BuildConfig) (text : string) (vec : Captures) (i : nat) : option Z :=
  match vec !! i with
  | Some (start, limit) => parse_int cfg text start limit
  | None => None
  end.

(** [RE::PartialMatch(text, &a0, &a1)] with two [int*] arguments: the
    result and the values of [*a0] and [*a1] afterwards.  The arguments are
    converted in order and the first failure returns at once. *)
Definition PartialMatch (cfg : BuildConfig) (r : RE) (text : string) (a0 a1 : Z) :
    bool * Z * Z :=
  match TryMatch r text with
  | None => (false, a0, a1)
  | Some vec =>
      if (NumberOfCapturingGroups r <? 2)%nat then (false, a0, a1)
      else
        match Parse cfg text vec 1 with
        | None => (false, a0, a1)
        | Some v0 =>
            match Parse cfg text vec 2 with
            | None => (false, v0, a1)
            | Some v1 => (true, v0, v1)
            end
        end
  end.

End pcrecpp.

(** The pattern [^(\d+)\.(\d+)\.] *)
Definition ver_regex : pcrecpp.RE :=
  pcrecpp.Seq pcrecpp.Bol
    (pcrecpp.Seq (pcrecpp.Group 1 (pcrecpp.Plus pcrecpp.Digit))
      (pcrecpp.Seq (pcrecpp.Chr (pcrecpp.Lit "."))
        (pcrecpp.Seq (pcrecpp.Group 2 (pcrecpp.Plus pcrecpp.Digit))
          (pcrecpp.Chr (pcrecpp.Lit "."))))).

(** [bool VersionInfoInterface::isSameMajorVersion(const char* otherVersion)] *)
Definition isSameMajorVersion (cfg : BuildConfig) (self : VersionInfoInterface)
    (otherVersion : string) : bool :=
  let major := -1 in
  let minor := -1 in
  let '(_, major, minor) :=
    pcrecpp.PartialMatch cfg ver_regex (c_str otherVersion) major minor in
  if (major =? -1) || (minor =? -1) then false
  else (major =? majorVersion self) && (minor =? minorVersion self).

(** A build used in the examples: 64-bit Linux with OpenSSL. *)
Definition linux_openssl : BuildConfig := {|
  _WIN32 := false;
  MONGO_CONFIG_SSL := Some MONGO_CONFIG_SSL_PROVIDER_OPENSSL;
  OPENSSL_VERSION_TEXT := "OpenSSL 1.1.1f  31 Mar 2020";
  SSLeay_version := "OpenSSL 1.1.1f  31 Mar 2020";
  sizeof_void_ptr := 8;
  kDebugBuild := false;
  BSONObjMaxUserSize := 16 * 1024 * 1024;
  data_model := LP64
|}.

(** A 64-bit Windows build with SChannel. *)
Definition windows_schannel : BuildConfig := {|
  _WIN32 := true;
  MONGO_CONFIG_SSL := Some MONGO_CONFIG_SSL_PROVIDER_WINDOWS;
  OPENSSL_VERSION_TEXT := "";
  SSLeay_version := "";
  sizeof_void_ptr := 8;
  kDebugBuild := false;
  BSONObjMaxUserSize := 16 * 1024 * 1024;
  data_model := LLP64
|}.

(** A provider of version 4.2.1. *)
Definition provider_4_2_1 : VersionInfoInterface := {|
  majorVersion := 4;
  minorVersion := 2;
  patchVersion := 1;
  extraVersion := 0;
  version := "4.2.1";
  gitVersion := "0123456789abcdef";
  modules := ["enterprise"];
  allocator := "tcmalloc";
  jsEngine := "mozjs";
  targetMinOS := "Windows 7/Windows Server 2008 R2";
  buildInfo :=
    [ {| key := "distmod"; value := "ubuntu1804"; inBuildInfo := true |};
      {| key := "cc"; value := "gcc"; inBuildInfo := true |};
      {| key := "ccflags"; value := ""; inBuildInfo := true |};
      {| key := "extraInfo"; value := "internal"; inBuildInfo := false |} ]
|}.

(** Every [instance] call of a run found the registry set and returned the
    registered object; the run did not end the process. *)
Definition configured_at_every_call (o : Outcome (list (pointer * loc))) : Prop :=
  match o with
  | Returned t _ => Forall (fun c => fst c = Ptr (snd c)) t
  | Terminated _ _ => False
  end.

(** [s] with [globalVersionInfo] replaced. *)
Definition with_globalVersionInfo (handler : pointer) (s : Process) : Process :=
  {| heap := heap s;
     globalVersionInfo := handler;
     fallbackVersionInfo := fallbackVersionInfo s;
     log := log s |}.

(** The fields of the report's [buildEnvironment] and the documents of the
    log record's [environment], read off the outputs. *)
Definition report_buildEnvironment (cfg : BuildConfig) (self : VersionInfoInterface) :
    option BSONValue :=
  getField (appendBuildInfo cfg self []) "buildEnvironment".

Definition logged_environment (cfg : BuildConfig) (self : VersionInfoInterface)
    (s : Process) : option LogAttr :=
  match logBuildInfo cfg self s with
  | Returned _ s' =>
      match last (log s') with
      | Some r => getAttr (log_attrs r) "environment"
      | None => None
      end
  | Terminated _ _ => None
  end.

(** A field whose value is not the empty string. *)
Definition has_value (f : string * BSONValue) : bool :=
  match snd f with
  | BString v => negb (empty v)
  | _ => true
  end.

(** The nested [openssl] document of the report has a [running] and a
    [compiled] string. *)
Definition openssl_has_running_and_compiled (cfg : BuildConfig)
    (self : VersionInfoInterface) : Prop :=
  exists o running compiled,
    getField (appendBuildInfo cfg self []) "openssl" = Some (BObject o)
    /\ getField o "running" = Some (BString running)
    /\ getField o "compiled" = Some (BString compiled).

(** ** Vocabulary of the comparator's properties *)

(** A text made of decimal digits, and the number it denotes. *)
Fixpoint all_digits (d : string) : bool :=
  match d with
  | EmptyString => true
  | String c rest => isdigit c && all_digits rest
  end.

Fixpoint decimal (d : string) : Z :=
  match d with
  | EmptyString => 0
  | String c rest => digit_value c * 10 ^ Z.of_nat (String.length rest) + decimal rest
  end.

(** [s] starts with the digits [d1], a dot, the digits [d2] and a dot. *)
Definition starts_with_version_pattern (s d1 d2 : string) : Prop :=
  d1 <> "" /\ d2 <> "" /\ all_digits d1 = true /\ all_digits d2 = true
  /\ exists rest, s = d1 +:+ "." +:+ d2 +:+ "." +:+ rest.

(** The longest run of digits [s] starts with, and what follows it. *)
Fixpoint span_digits (s : string) : string * string :=
  match s with
  | EmptyString => ("", "")
  | String c rest =>
      if isdigit c then let '(d, r) := span_digits rest in (String c d, r)
      else ("", s)
  end.

(** The two digit runs when [s] starts with digits, dot, digits, dot. *)
Definition version_prefix (s : string) : option (string * string) :=
  match span_digits s with
  | (EmptyString, _) => None
  | (d1, r) =>
      match r with
      | EmptyString => None
      | String c r1 =>
          if Ascii.eqb c "." then
            match span_digits r1 with
            | (EmptyString, _) => None
            | (d2, r2) =>
                match r2 with
                | EmptyString => None
                | String c' _ => if Ascii.eqb c' "." then Some (d1, d2) else None
                end
            end
          else None
      end
  end.

(** A continuation that fails when the subject goes on with a digit. *)
Definition fails_on_digit (k : pcrecpp.Cont) : Prop :=
  forall c rest pos caps, isdigit c = true -> k (String c rest) pos caps = None.

(** The offsets [ver_regex] records on a text that starts with the digits
    [d1], a dot, the digits [d2] and a dot: the whole match and the two
    groups. *)
Definition ver_captures (d1 d2 : string) : gmap nat (nat * nat) :=
  <[0%nat := (0%nat, (String.length d1 + 1 + String.length d2 + 1)%nat)]>
    (<[2%nat := ((String.length d1 + 1)%nat, (String.length d1 + 1 + String.length d2)%nat)]>
       (<[1%nat := (0%nat, String.length d1)]> ∅)).

(** ** Vocabulary of the further properties *)

(** The pointer the last [enable] call of a sequence stored, [init] when the
    sequence has none. *)
Definition last_enabled (calls : list Call) (init : pointer) : pointer :=
  fold_left (fun g c => match c with CallEnable handler => handler | _ => g end) calls init.

(** What a caller observes of a call: the value returned, or the message
    number the process ended with. *)
Definition observed {A : Type} (o : Outcome A) : A + Z :=
  match o with
  | Returned a _ => inl a
  | Terminated msgid _ => inr msgid
  end.

(** The state a call leaves, returning or not. *)
Definition final_state {A : Type} (o : Outcome A) : Process :=
  match o with
  | Returned _ s => s
  | Terminated _ s => s
  end.

(** The record [instance] writes before it ends the process. *)
Definition fatal_record : LogRecord :=
  {| log_id := 23405; log_severity := Severity_Severe;
     log_message := "Terminating because valid version info has not been configured";
     log_attrs := [] |}.

(** The record [logBuildInfo] writes. *)
Definition logged_record (cfg : BuildConfig) (self : VersionInfoInterface) (s : Process) :
    option LogRecord :=
  match logBuildInfo cfg self s with
  | Returned _ s' => last (log s')
  | Terminated _ _ => None
  end.

(** A provider whose major version is the comparator's "not parsed" mark. *)
Definition provider_minus_one : VersionInfoInterface := {|
  majorVersion := -1;
  minorVersion := -1;
  patchVersion := 0;
  extraVersion := 0;
  version := "";
  gitVersion := "";
  modules := [];
  allocator := "";
  jsEngine := "";
  targetMinOS := "";
  buildInfo := []
|}.

(** With [h] the heap of the host at program start: either the local static
    of [instance] is not initialised and the heap is still [h], or the static
    designates the one fallback object added to [h]. *)
Definition fallback_inv (h : gmap loc VersionInfoInterface) (s : Process) : Prop :=
  (fallbackVersionInfo s = None /\ heap s = h)
  \/ (fallbackVersionInfo s = Some (fresh (dom h))
      /\ heap s = <[fresh (dom h) := FallbackVersionInfo]> h).

(** * Properties *)

(** ** Registry *)

Section Registry.

Implicit Types (s : Process) (l : loc) (action : NotEnabledAction).

Lemma enable_spec handler s :
  enable handler s = Returned tt (with_globalVersionInfo handler s).
Proof. reflexivity. Qed.

Lemma instance_enabled action s l :
  globalVersionInfo s = Ptr l -> instance action s = Returned l s.
Proof. intros H. unfold instance. now rewrite H. Qed.

Lemma run_app calls1 calls2 s :
  run (calls1 ++ calls2) s =
  (t1 <- run calls1 ;; t2 <- run calls2 ;; ret (t1 ++ t2)) s.
Proof.
  revert s. induction calls1 as [|c calls1 IH]; intros s.
  - cbn. unfold bind, ret. destruct (run calls2 s); reflexivity.
  - destruct c as [handler|action]; cbn; unfold bind, ret.
    + cbn. rewrite IH. reflexivity.
    + destruct (instance action s) as [r s1|id s1]; [|reflexivity].
      rewrite IH. unfold bind, ret.
      destruct (run calls1 s1) as [t1 s2|]; [|reflexivity].
      destruct (run calls2 s2); reflexivity.
Qed.

Lemma run_instances_enabled actions s l :
  globalVersionInfo s = Ptr l ->
  run (map CallInstance actions) s = Returned (map (fun _ => (Ptr l, l)) actions) s.
Proof.
  intros H. induction actions as [|a actions IH]; [reflexivity|].
  cbn. unfold bind, ret. rewrite (instance_enabled a s l H), IH, H. reflexivity.
Qed.

Lemma static_fallbackVersionInfo_first s :
  fallbackVersionInfo s = None ->
  static_fallbackVersionInfo s =
  Returned (fresh (dom (heap s)))
    {| heap := <[fresh (dom (heap s)) := FallbackVersionInfo]> (heap s);
       globalVersionInfo := globalVersionInfo s;
       fallbackVersionInfo := Some (fresh (dom (heap s)));
       log := log s |}.
Proof. intros H. unfold static_fallbackVersionInfo. now rewrite H. Qed.

Lemma static_fallbackVersionInfo_again s l :
  fallbackVersionInfo s = Some l -> static_fallbackVersionInfo s = Returned l s.
Proof. intros H. unfold static_fallbackVersionInfo. now rewrite H. Qed.

Lemma run_fallback_again n s l :
  globalVersionInfo s = nullptr ->
  fallbackVersionInfo s = Some l ->
  run (repeat (CallInstance kFallback) n) s = Returned (repeat (nullptr, l) n) s.
Proof.
  intros Hg Hf. induction n as [|n IH]; [reflexivity|].
  cbn. unfold bind, ret, instance. rewrite Hg.
  rewrite (static_fallbackVersionInfo_again s l Hf), IH. reflexivity.
Qed.

Lemma fresh_not_allocated (h : gmap loc VersionInfoInterface) :
  h !! fresh (dom h) = None.
Proof. apply not_elem_of_dom, is_fresh. Qed.

End Registry.

(** C2: after [enable(P)] with a provider [P], every [instance] call, with
    either action, returns exactly [P] and leaves the process as it is, until
    another [enable] call installs another provider, which is then the one
    returned. *)
Theorem instance_returns_enabled_provider :
  forall (P Q : loc) (actions actions' : list NotEnabledAction) (s : Process),
    run (CallEnable (Ptr P) :: map CallInstance actions) s =
      Returned (map (fun _ => (Ptr P, P)) actions) (with_globalVersionInfo (Ptr P) s)
    /\ run (CallEnable (Ptr P) :: map CallInstance actions ++
            CallEnable (Ptr Q) :: map CallInstance actions') s =
      Returned (map (fun _ => (Ptr P, P)) actions ++ map (fun _ => (Ptr Q, Q)) actions')
               (with_globalVersionInfo (Ptr Q) s).
Proof.
  intros P Q actions actions' s.
  assert (H1 : forall R t, run (CallEnable (Ptr R) :: map CallInstance t) s =
            Returned (map (fun _ => (Ptr R, R)) t) (with_globalVersionInfo (Ptr R) s)).
  { intros R t. cbn [run]. unfold bind at 1. rewrite enable_spec.
    now apply run_instances_enabled. }
  split; [apply H1|].
  change (CallEnable (Ptr P) :: map CallInstance actions ++
          CallEnable (Ptr Q) :: map CallInstance actions')
    with ((CallEnable (Ptr P) :: map CallInstance actions) ++
          (CallEnable (Ptr Q) :: map CallInstance actions')).
  rewrite run_app. unfold bind at 1. rewrite H1.
  unfold bind at 1.
  pose proof (H1' := run_instances_enabled actions'
                       (with_globalVersionInfo (Ptr Q) s) Q eq_refl).
  cbn [run]. unfold bind at 1. rewrite enable_spec.
  unfold with_globalVersionInfo in *. cbn in *. rewrite H1'. reflexivity.
Qed.

(** C3: before any [enable] call, every [instance(kFallback)] call returns the
    same object, created by the first call at an address no host object has,
    and that object answers with the fallback sentinels. *)
Theorem instance_fallback_shared_sentinels :
  forall (h : gmap loc VersionInfoInterface) (n : nat),
    exists (f : loc) (s' : Process) (obj : VersionInfoInterface),
      run (repeat (CallInstance kFallback) (S n)) (startup h) =
        Returned (repeat (nullptr, f) (S n)) s'
      /\ h !! f = None
      /\ heap s' !! f = Some obj
      /\ globalVersionInfo s' = nullptr
      /\ majorVersion obj = 0 /\ minorVersion obj = 0
      /\ patchVersion obj = 0 /\ extraVersion obj = 0
      /\ version obj = "unknown" /\ gitVersion obj = "none"
      /\ modules obj = ["unknown"]
      /\ allocator obj = "unknown" /\ jsEngine obj = "unknown"
      /\ targetMinOS obj = "unknown"
      /\ buildInfo obj = [].
Proof.
  intros h n.
  set (f := fresh (dom h)).
  set (s' := {| heap := <[f := FallbackVersionInfo]> h;
                globalVersionInfo := nullptr;
                fallbackVersionInfo := Some f;
                log := [] |}).
  exists f, s', FallbackVersionInfo.
  split.
  - change (repeat (CallInstance kFallback) (S n))
      with (CallInstance kFallback :: repeat (CallInstance kFallback) n).
    cbn [run]. unfold bind at 1. unfold instance at 1. cbn [globalVersionInfo startup].
    rewrite static_fallbackVersionInfo_first by reflexivity.
    cbn [heap globalVersionInfo log startup]. fold f. fold s'.
    unfold bind, ret.
    rewrite (run_fallback_again n s' f eq_refl eq_refl). reflexivity.
  - split; [apply fresh_not_allocated|].
    split; [apply lookup_insert_eq|].
    repeat split.
Qed.

(** C8: with no provider registered, [instance] with the fatal action writes
    the diagnostic record and then ends the process: the outcome is never a
    return, and nothing the caller does afterwards runs. *)
Theorem instance_fatal_terminates :
  forall (s : Process),
    globalVersionInfo s = nullptr ->
    let s' := {| heap := heap s;
                 globalVersionInfo := globalVersionInfo s;
                 fallbackVersionInfo := fallbackVersionInfo s;
                 log := log s ++
                   [{| log_id := 23405; log_severity := Severity_Severe;
                       log_message :=
                         "Terminating because valid version info has not been configured";
                       log_attrs := [] |}] |} in
    instance kAbortProcess s = Terminated 40278 s'
    /\ (forall r s'', instance kAbortProcess s <> Returned r s'')
    /\ (forall (B : Type) (k : loc -> M B),
          (r <- instance kAbortProcess ;; k r) s = Terminated 40278 s').
Proof.
  intros s H s'.
  assert (E : instance kAbortProcess s = Terminated 40278 s').
  { unfold instance. rewrite H. reflexivity. }
  split; [exact E|]. split.
  - intros r s''. rewrite E. discriminate.
  - intros B k. unfold bind. rewrite E. reflexivity.
Qed.

Lemma instance_fatal_terminates_witness :
  globalVersionInfo (startup ∅) = nullptr
  /\ exists s', instance kAbortProcess (startup ∅) = Terminated 40278 s'
                /\ length (log s') = 1%nat.
Proof.
  split; [reflexivity|].
  eexists. split.
  - apply (instance_fatal_terminates (startup ∅)). reflexivity.
  - reflexivity.
Defined.

(** C9 as stated fails: [enable] accepts the null pointer, and
    [enable(nullptr)] after [enable(P)] puts the registry back in the
    not-enabled state, where [instance] creates and returns the fallback
    object or ends the process. *)
Lemma enable_nullptr_unregisters :
  ~ configured_at_every_call
      (run [CallEnable (Ptr 1%positive); CallEnable nullptr; CallInstance kFallback]
           (startup ∅))
  /\ ~ configured_at_every_call
      (run [CallEnable (Ptr 1%positive); CallEnable nullptr; CallInstance kAbortProcess]
           (startup ∅))
  /\ (exists f s',
        run [CallEnable (Ptr 1%positive); CallEnable nullptr; CallInstance kFallback]
            (startup ∅) = Returned [(nullptr, f)] s'
        /\ heap s' !! f = Some FallbackVersionInfo)
  /\ (exists s',
        run [CallEnable (Ptr 1%positive); CallEnable nullptr; CallInstance kAbortProcess]
            (startup ∅) = Terminated 40278 s').
Proof.
  split; [|split; [|split]].
  - cbn. intros H. inversion H as [|x t Hx Ht]; subst. discriminate Hx.
  - cbn. intros H. exact H.
  - eexists _, _. split; [reflexivity|]. cbn. apply lookup_insert_eq.
  - eexists. reflexivity.
Qed.

(** C9, amended: once [enable] was called with a provider, and as long as no
    later [enable] call passes the null pointer, every [instance] call finds
    the registry set and returns the registered object: the run never creates
    the fallback object, writes no diagnostic and does not end the process. *)
Theorem enabled_registry_stays_enabled :
  forall (P : loc) (calls : list Call) (s : Process),
    Forall (fun c => c <> CallEnable nullptr) calls ->
    exists t s',
      run (CallEnable (Ptr P) :: calls) s = Returned t s'
      /\ configured_at_every_call (Returned t s')
      /\ globalVersionInfo s' <> nullptr
      /\ heap s' = heap s
      /\ fallbackVersionInfo s' = fallbackVersionInfo s
      /\ log s' = log s.
Proof.
  intros P calls s Hcalls.
  cbn [run]. unfold bind at 1. rewrite enable_spec.
  assert (G : forall s0 l, globalVersionInfo s0 = Ptr l ->
            exists t s', run calls s0 = Returned t s'
              /\ Forall (fun c => fst c = Ptr (snd c)) t
              /\ globalVersionInfo s' <> nullptr
              /\ heap s' = heap s0
              /\ fallbackVersionInfo s' = fallbackVersionInfo s0
              /\ log s' = log s0).
  { clear s. induction Hcalls as [|c calls Hc _ IH]; intros s0 l Hg.
    - exists [], s0. cbn. rewrite Hg. repeat split; [constructor|discriminate].
    - destruct c as [handler|action].
      + destruct handler as [|l']; [congruence|].
        cbn [run]. unfold bind at 1. rewrite enable_spec.
        destruct (IH (with_globalVersionInfo (Ptr l') s0) l' eq_refl)
          as (t & s' & E & Ht & Hn & Hh & Hf & Hl).
        exists t, s'. cbn in *. repeat split; assumption.
      + cbn [run]. unfold bind at 1. rewrite (instance_enabled action s0 l Hg).
        destruct (IH s0 l Hg) as (t & s' & E & Ht & Hn & Hh & Hf & Hl).
        exists ((Ptr l, l) :: t), s'. unfold bind, ret. rewrite E, Hg.
        repeat split; try assumption. constructor; [reflexivity|assumption]. }
  destruct (G (with_globalVersionInfo (Ptr P) s) P eq_refl)
    as (t & s' & E & Ht & Hn & Hh & Hf & Hl).
  exists t, s'. cbn in *. repeat split; assumption.
Qed.

Lemma enabled_registry_stays_enabled_witness :
  Forall (fun c => c <> CallEnable nullptr)
         [CallInstance kAbortProcess; CallEnable (Ptr 2%positive); CallInstance kFallback]
  /\ exists t s',
      run (CallEnable (Ptr 1%positive) ::
           [CallInstance kAbortProcess; CallEnable (Ptr 2%positive); CallInstance kFallback])
          (startup ∅) = Returned t s'
      /\ configured_at_every_call (Returned t s').
Proof.
  assert (H : Forall (fun c => c <> CallEnable nullptr)
         [CallInstance kAbortProcess; CallEnable (Ptr 2%positive); CallInstance kFallback]).
  { repeat constructor; discriminate. }
  split; [exact H|].
  destruct (enabled_registry_stays_enabled 1%positive _ (startup ∅) H)
    as (t & s' & E & Hc & _).
  exists t, s'. split; assumption.
Defined.


(** ** Report and log record *)

Section Report.

Variables (cfg : BuildConfig) (self : VersionInfoInterface).

Lemma append_nil_r (s : string) : s +:+ "" = s.
Proof.
  induction s as [|c s IH]; [reflexivity|].
  change (String c (s +:+ "") = String c s). now rewrite IH.
Qed.

Lemma openSSLVersion_default :
  MONGO_CONFIG_SSL cfg = Some MONGO_CONFIG_SSL_PROVIDER_OPENSSL ->
  openSSLVersion cfg "" "" = SSLeay_version cfg.
Proof. intros H. unfold openSSLVersion. rewrite H, append_nil_r. reflexivity. Qed.

(** The loop over [buildInfo()] keeps, in order, the fields to report. *)
Lemma env_loop (fields : list BuildInfoField) (env : BSONObjBuilder) :
  fold_left
    (fun env e => if inBuildInfo e then append env (key e) (BString (value e)) else env)
    fields env =
  env ++ map (fun e => (key e, BString (value e))) (List.filter inBuildInfo fields).
Proof.
  revert env. induction fields as [|e fields IH]; intros env; cbn.
  - now rewrite app_nil_r.
  - rewrite IH. destruct (inBuildInfo e); [|reflexivity].
    unfold append. cbn. now rewrite <- app_assoc.
Qed.

Lemma filter_envFilter (fields : list BuildInfoField) :
  map envFormatter (List.filter envFilter fields) =
  map (fun f => [f])
      (List.filter has_value
         (map (fun e => (key e, BString (value e))) (List.filter inBuildInfo fields))).
Proof.
  induction fields as [|e fields IH]; [reflexivity|].
  cbn. unfold envFilter at 1. destruct (inBuildInfo e); cbn; [|exact IH].
  unfold has_value at 1. cbn. destruct (empty (value e)); cbn; [exact IH|].
  now rewrite IH.
Qed.

Lemma appendBuildInfo_appends (result : BSONObjBuilder) :
  appendBuildInfo cfg self result = result ++ appendBuildInfo cfg self [].
Proof.
  unfold appendBuildInfo, append. destruct (_WIN32 cfg); cbn;
    repeat rewrite <- app_assoc; reflexivity.
Qed.

End Report.

(** C1: for every provider and build, the report has exactly these top-level
    fields, in this order, [targetMinOS] being there exactly in a Windows
    build, and [sysInfo] is the string "deprecated".  What the builder held
    before the call stays in front. *)
Theorem appendBuildInfo_field_names :
  forall (cfg : BuildConfig) (self : VersionInfoInterface),
    fieldNames (appendBuildInfo cfg self []) =
      ["version"; "gitVersion"]
      ++ (if _WIN32 cfg then ["targetMinOS"] else [])
      ++ ["modules"; "allocator"; "javascriptEngine"; "sysInfo"; "versionArray";
          "openssl"; "buildEnvironment"; "bits"; "debug"; "maxBsonObjectSize"]
    /\ getField (appendBuildInfo cfg self []) "sysInfo" = Some (BString "deprecated")
    /\ forall result,
         appendBuildInfo cfg self result = result ++ appendBuildInfo cfg self [].
Proof.
  intros cfg self. split; [|split].
  - unfold appendBuildInfo, append, fieldNames. destruct (_WIN32 cfg); reflexivity.
  - unfold appendBuildInfo, append. destruct (_WIN32 cfg); reflexivity.
  - apply appendBuildInfo_appends.
Qed.

(** C6: the report's [buildEnvironment] holds the fields with [inBuildInfo]
    set, as name and value in their order, empty values included; the log
    record's [environment] holds one single-field document for each field
    with [inBuildInfo] set and a value that is not empty, in their order; so
    the second is the first without its empty values. *)
Theorem buildEnvironment_vs_logged_environment :
  forall (cfg : BuildConfig) (self : VersionInfoInterface) (s : Process),
    let reported :=
      map (fun e => (key e, BString (value e))) (List.filter inBuildInfo (buildInfo self)) in
    let logged :=
      map (fun e => [(key e, BString (value e))])
          (List.filter (fun e => inBuildInfo e && negb (empty (value e))) (buildInfo self)) in
    report_buildEnvironment cfg self = Some (BObject reported)
    /\ logged_environment cfg self s = Some (AttrObjSeq logged)
    /\ logged = map (fun f => [f]) (List.filter has_value reported).
Proof.
  intros cfg self s reported logged. split; [|split].
  - unfold report_buildEnvironment, appendBuildInfo. rewrite env_loop.
    unfold append. destruct (_WIN32 cfg); reflexivity.
  - unfold logged_environment, logBuildInfo, LOGV2. cbn [log].
    rewrite last_snoc. cbn [log_attrs]. unfold add.
    destruct (MONGO_CONFIG_SSL cfg) as [[| |]|]; reflexivity.
  - apply (filter_envFilter (buildInfo self)).
Qed.

(** C7 as stated fails: a build with the Windows backend reports an [openssl]
    document with the single field [running]. *)
Lemma openssl_compiled_missing_for_schannel :
  ~ openssl_has_running_and_compiled windows_schannel provider_4_2_1.
Proof.
  intros (o & running & compiled & Ho & _ & Hc).
  vm_compute in Ho. injection Ho as <-. vm_compute in Hc. discriminate Hc.
Qed.

(** C7, amended: the [openssl] document always has [running]; it has
    [compiled] exactly when the build uses OpenSSL (the two version texts)
    or has no TLS (both "disabled"); with the Windows or the Apple backend it
    is the single field [running], the name of the backend. *)
Theorem appendBuildInfo_openssl :
  forall (cfg : BuildConfig) (self : VersionInfoInterface),
    exists o,
      getField (appendBuildInfo cfg self []) "openssl" = Some (BObject o)
      /\ o = match MONGO_CONFIG_SSL cfg with
             | Some MONGO_CONFIG_SSL_PROVIDER_OPENSSL =>
                 [("running", BString (SSLeay_version cfg));
                  ("compiled", BString (OPENSSL_VERSION_TEXT cfg))]
             | Some MONGO_CONFIG_SSL_PROVIDER_WINDOWS =>
                 [("running", BString "Windows SChannel")]
             | Some MONGO_CONFIG_SSL_PROVIDER_APPLE =>
                 [("running", BString "Apple Secure Transport")]
             | None =>
                 [("running", BString "disabled"); ("compiled", BString "disabled")]
             end
      /\ (exists running, getField o "running" = Some (BString running))
      /\ ((exists compiled, getField o "compiled" = Some (BString compiled)) <->
          (MONGO_CONFIG_SSL cfg = Some MONGO_CONFIG_SSL_PROVIDER_OPENSSL
           \/ MONGO_CONFIG_SSL cfg = None)).
Proof.
  intros cfg self.
  assert (E : exists o, getField (appendBuildInfo cfg self []) "openssl" = Some (BObject o)
              /\ o = match MONGO_CONFIG_SSL cfg with
             | Some MONGO_CONFIG_SSL_PROVIDER_OPENSSL =>
                 [("running", BString (SSLeay_version cfg));
                  ("compiled", BString (OPENSSL_VERSION_TEXT cfg))]
             | Some MONGO_CONFIG_SSL_PROVIDER_WINDOWS =>
                 [("running", BString "Windows SChannel")]
             | Some MONGO_CONFIG_SSL_PROVIDER_APPLE =>
                 [("running", BString "Apple Secure Transport")]
             | None =>
                 [("running", BString "disabled"); ("compiled", BString "disabled")]
             end).
  { eexists. split.
    - unfold appendBuildInfo, append. destruct (_WIN32 cfg); reflexivity.
    - destruct (MONGO_CONFIG_SSL cfg) as [[| |]|] eqn:H; try reflexivity.
      rewrite (openSSLVersion_default cfg H). reflexivity. }
  destruct E as (o & Ho & Eo). exists o.
  split; [exact Ho|]. split; [exact Eo|].
  destruct (MONGO_CONFIG_SSL cfg) as [[| |]|]; subst o; cbn.
  - split; [eauto|]. split; [auto|eauto].
  - split; [eauto|]. split; [intros [c Hc]; discriminate|intros [H|H]; discriminate].
  - split; [eauto|]. split; [intros [c Hc]; discriminate|intros [H|H]; discriminate].
  - split; [eauto|]. split; [auto|eauto].
Qed.

(** C10: the three front-end strings are the fixed prefix followed by the
    provider's [version()], the same as [makeVersionString] gives for the
    front-end's name, and depend on nothing else of the provider. *)
Theorem front_end_version_strings :
  forall (p : VersionInfoInterface),
    mongoShellVersion p = "MongoDB shell version v" +:+ version p
    /\ mongosVersion p = "mongos version v" +:+ version p
    /\ mongodVersion p = "db version v" +:+ version p
    /\ mongoShellVersion p = makeVersionString p "MongoDB shell version"
    /\ mongosVersion p = makeVersionString p "mongos version"
    /\ mongodVersion p = makeVersionString p "db version"
    /\ forall q, version q = version p ->
         mongoShellVersion q = mongoShellVersion p
         /\ mongosVersion q = mongosVersion p
         /\ mongodVersion q = mongodVersion p.
Proof.
  intros p. repeat split; try reflexivity;
    unfold mongoShellVersion, mongosVersion, mongodVersion; congruence.
Qed.

(** ** Version comparator *)

Section Characters.

Lemma isdigit_range c :
  isdigit c = true <-> (48 <= nat_of_ascii c <= 57)%nat.
Proof.
  unfold isdigit. rewrite andb_true_iff, !Nat.leb_le. reflexivity.
Qed.

Lemma isdigit_not (c c' : ascii) :
  isdigit c = true -> isdigit c' = false -> Ascii.eqb c c' = false.
Proof.
  intros H H'. destruct (Ascii.eqb_spec c c') as [->|]; congruence.
Qed.

Lemma isdigit_not_space c : isdigit c = true -> isspace c = false.
Proof.
  rewrite isdigit_range. intros H. unfold isspace.
  apply orb_false_iff. split.
  - apply andb_false_iff. right. apply Nat.leb_gt. lia.
  - apply Nat.eqb_neq. lia.
Qed.

Lemma digit_value_range c : isdigit c = true -> 0 <= digit_value c <= 9.
Proof. rewrite isdigit_range. unfold digit_value. lia. Qed.

End Characters.

Section Strings.

Lemma length_append (a b : string) :
  String.length (a +:+ b) = (String.length a + String.length b)%nat.
Proof.
  induction a as [|c a IH]; [reflexivity|].
  change (S (String.length (a +:+ b)) = S (String.length a + String.length b)).
  now rewrite IH.
Qed.

Lemma substring_append_skip (a b : string) (n m : nat) :
  substring (String.length a + n) m (a +:+ b) = substring n m b.
Proof. induction a as [|c a IH]; [reflexivity|exact IH]. Qed.

Lemma substring_prefix (a b : string) :
  substring 0 (String.length a) (a +:+ b) = a.
Proof.
  induction a as [|c a IH]; [now destruct b|].
  change (String c (substring 0 (String.length a) (a +:+ b)) = String c a).
  now rewrite IH.
Qed.

Lemma get_append_skip (a b : string) (n : nat) :
  get (String.length a + n) (a +:+ b) = get n b.
Proof. induction a as [|c a IH]; [reflexivity|exact IH]. Qed.

Lemma append_assoc (a b c : string) : (a +:+ b) +:+ c = a +:+ (b +:+ c).
Proof.
  induction a as [|x a IH]; [reflexivity|].
  change (String x ((a +:+ b) +:+ c) = String x (a +:+ (b +:+ c))).
  now rewrite IH.
Qed.

(** Digits and dots are not NUL: the C string keeps such a prefix. *)
Lemma c_str_digits (d rest : string) :
  all_digits d = true -> c_str (d +:+ rest) = d +:+ c_str rest.
Proof.
  induction d as [|c d IH]; [reflexivity|].
  cbn [all_digits]. intros [Hc Hd]%andb_true_iff.
  change (c_str (String c (d +:+ rest)) = String c (d +:+ c_str rest)).
  cbn [c_str]. rewrite (isdigit_not c zero Hc eq_refl). now rewrite IH.
Qed.

Lemma c_str_prefix (a b s : string) :
  c_str s = a +:+ b -> exists b', s = a +:+ b'.
Proof.
  revert s. induction a as [|c a IH]; intros s H.
  - exists s. reflexivity.
  - destruct s as [|x s]; [discriminate H|].
    cbn [c_str] in H. destruct (Ascii.eqb x zero); [discriminate H|].
    change (String x (c_str s) = String c (a +:+ b)) in H.
    injection H as -> H. destruct (IH s H) as [b' ->].
    exists b'. reflexivity.
Qed.

End Strings.

Section Digits.

Lemma span_digits_sound s d r :
  span_digits s = (d, r) ->
  s = d +:+ r /\ all_digits d = true
  /\ match r with String c _ => isdigit c = false | EmptyString => True end.
Proof.
  revert d r. induction s as [|c s IH]; intros d r H; cbn [span_digits] in H.
  - injection H as <- <-. repeat split.
  - destruct (isdigit c) eqn:Hc.
    + destruct (span_digits s) as [d' r'] eqn:E. injection H as <- <-.
      destruct (IH d' r' eq_refl) as (-> & Hd & Hr).
      repeat split; [|exact Hr]. cbn [all_digits]. now rewrite Hc, Hd.
    + injection H as <- <-. repeat split. exact Hc.
Qed.

Lemma span_digits_complete d r :
  all_digits d = true ->
  match r with String c _ => isdigit c = false | EmptyString => True end ->
  span_digits (d +:+ r) = (d, r).
Proof.
  intros Hd Hr. induction d as [|c d IH].
  - destruct r as [|c r]; [reflexivity|].
    change (span_digits (String c r) = ("", String c r)).
    cbn [span_digits]. now rewrite Hr.
  - cbn [all_digits] in Hd. apply andb_true_iff in Hd as [Hc Hd].
    change (span_digits (String c (d +:+ r)) = (String c d, r)).
    cbn [span_digits]. now rewrite Hc, (IH Hd).
Qed.

Lemma decimal_nonneg d : all_digits d = true -> 0 <= decimal d.
Proof.
  induction d as [|c d IH]; [reflexivity|].
  cbn [all_digits decimal]. intros [Hc Hd]%andb_true_iff.
  pose proof (digit_value_range c Hc). specialize (IH Hd).
  assert (0 <= 10 ^ Z.of_nat (String.length d)) by (apply Z.pow_nonneg; lia).
  nia.
Qed.

(** The accumulating loop of [strtol] computes the positional value. *)
Lemma strtol_digits_decimal d acc :
  all_digits d = true ->
  pcrecpp.strtol_digits d acc =
    (acc * 10 ^ Z.of_nat (String.length d) + decimal d, String.length d).
Proof.
  revert acc. induction d as [|c d IH]; intros acc.
  - intros _. cbn. f_equal. lia.
  - cbn [all_digits]. intros [Hc Hd]%andb_true_iff.
    cbn [pcrecpp.strtol_digits]. rewrite Hc, (IH _ Hd).
    cbn [decimal String.length]. f_equal.
    rewrite Nat2Z.inj_succ, Z.pow_succ_r by lia. ring.
Qed.

End Digits.

Section Pattern.

Lemma pattern_text (d1 d2 rest : string) :
  d1 +:+ "." +:+ d2 +:+ "." +:+ rest = d1 +:+ String "." (d2 +:+ String "." rest).
Proof. reflexivity. Qed.

Lemma version_prefix_sound s d1 d2 :
  version_prefix s = Some (d1, d2) -> starts_with_version_pattern s d1 d2.
Proof.
  unfold version_prefix. intros H.
  destruct (span_digits s) as [a r] eqn:E1.
  destruct a as [|c a]; [discriminate H|].
  destruct r as [|x r1]; [discriminate H|].
  destruct (Ascii.eqb_spec x ".") as [->|]; [|discriminate H].
  destruct (span_digits r1) as [b r2] eqn:E2.
  destruct b as [|c' b]; [discriminate H|].
  destruct r2 as [|y r3]; [discriminate H|].
  destruct (Ascii.eqb_spec y ".") as [->|]; [|discriminate H].
  injection H as <- <-.
  apply span_digits_sound in E1 as (-> & Ha & _).
  apply span_digits_sound in E2 as (-> & Hb & _).
  repeat split; try discriminate; try assumption.
  exists r3. reflexivity.
Qed.

Lemma version_prefix_complete s d1 d2 :
  starts_with_version_pattern s d1 d2 -> version_prefix s = Some (d1, d2).
Proof.
  intros (N1 & N2 & H1 & H2 & rest & ->). unfold version_prefix.
  rewrite pattern_text.
  rewrite (span_digits_complete d1 _ H1) by reflexivity.
  destruct d1 as [|c d1]; [congruence|].
  change (Ascii.eqb "." ".") with true. cbv iota.
  rewrite (span_digits_complete d2 _ H2) by reflexivity.
  destruct d2 as [|c' d2]; [congruence|]. reflexivity.
Qed.

(** The C string of a text starts with the pattern exactly when the text
    does. *)
Lemma c_str_pattern s d1 d2 :
  starts_with_version_pattern (c_str s) d1 d2 <-> starts_with_version_pattern s d1 d2.
Proof.
  split; intros (N1 & N2 & H1 & H2 & rest & Hs); repeat split; try assumption.
  - assert (Hp : c_str s = (d1 +:+ "." +:+ d2 +:+ ".") +:+ rest).
    { rewrite Hs, append_assoc. f_equal.
      change (String "." (d2 +:+ "." +:+ rest) = String "." ((d2 +:+ ".") +:+ rest)).
      now rewrite append_assoc. }
    destruct (c_str_prefix _ _ _ Hp) as [b ->]. exists b.
    rewrite append_assoc. f_equal.
    change (String "." ((d2 +:+ ".") +:+ b) = String "." (d2 +:+ "." +:+ b)).
    now rewrite append_assoc.
  - exists (c_str rest). rewrite Hs, (c_str_digits d1 _ H1).
    change (c_str ("." +:+ d2 +:+ "." +:+ rest))
      with ("." +:+ c_str (d2 +:+ "." +:+ rest)).
    rewrite (c_str_digits d2 _ H2). reflexivity.
Qed.

Lemma version_prefix_c_str s :
  version_prefix (c_str s) = version_prefix s.
Proof.
  destruct (version_prefix s) as [[d1 d2]|] eqn:E.
  - apply version_prefix_complete, (proj2 (c_str_pattern s d1 d2)),
      version_prefix_sound, E.
  - destruct (version_prefix (c_str s)) as [[d1 d2]|] eqn:E'; [|reflexivity].
    apply version_prefix_sound, (proj1 (c_str_pattern s d1 d2)),
      version_prefix_complete in E'.
    congruence.
Qed.

End Pattern.

Section Matcher.

Import pcrecpp.

Lemma span_digits_nil s r : span_digits s = ("", r) -> r = s.
Proof.
  destruct s as [|c s]; cbn [span_digits].
  - now intros [= <-].
  - destruct (isdigit c); [destruct (span_digits s); discriminate|now intros [= <-]].
Qed.

(** Greedy [\d+] before an item that rejects digits takes the whole run of
    digits: giving digits back never helps. *)
Lemma plus_loop_digits (k : Cont) s pos caps :
  fails_on_digit k ->
  plus_loop Digit s pos caps k =
    match span_digits s with
    | (EmptyString, _) => None
    | (d, rest) => k rest (pos + String.length d)%nat caps
    end.
Proof.
  intros Hk. revert pos. induction s as [|c s IH]; intros pos; [reflexivity|].
  cbn [plus_loop class_matches span_digits].
  destruct (isdigit c) eqn:Hc; [|reflexivity].
  rewrite IH. destruct (span_digits s) as [d r] eqn:E.
  destruct d as [|a d].
  - apply span_digits_nil in E as ->. cbn [String.length].
    now replace (pos + 1)%nat with (S pos) by lia.
  - apply span_digits_sound in E as (-> & Ha & _).
    cbn [all_digits] in Ha. apply andb_true_iff in Ha as [Ha _].
    change (String a d +:+ r) with (String a (d +:+ r)).
    rewrite (Hk a _ _ _ Ha). cbn [String.length].
    replace (pos + S (S (String.length d)))%nat
      with (S pos + S (String.length d))%nat by lia.
    now destruct (k r _ caps).
Qed.

Lemma search_unfold r rest pos :
  search r rest pos =
    match exec r rest pos ∅ (fun _ pos' caps => Some (<[0%nat := (pos, pos')]> caps)) with
    | Some vec => Some vec
    | None =>
        match rest with
        | EmptyString => None
        | String _ rest' => search r rest' (S pos)
        end
    end.
Proof. destruct rest; reflexivity. Qed.

(** [^] only matches at offset 0: later start offsets all fail. *)
Lemma search_ver_regex_later rest pos : search ver_regex rest (S pos) = None.
Proof.
  revert pos. induction rest as [|c rest IH]; intros pos; [reflexivity|].
  rewrite search_unfold. cbn [exec ver_regex Nat.eqb]. apply IH.
Qed.

Lemma TryMatch_ver_regex text :
  TryMatch ver_regex text =
    match version_prefix text with
    | Some (d1, d2) => Some (ver_captures d1 d2)
    | None => None
    end.
Proof.
  unfold TryMatch. rewrite search_unfold.
  assert (L : match text with
              | EmptyString => None
              | String _ rest' => search ver_regex rest' 1
              end = None).
  { destruct text; [reflexivity|apply search_ver_regex_later]. }
  rewrite L. clear L.
  cbn [exec ver_regex Nat.eqb].
  rewrite plus_loop_digits.
  2:{ intros c rest pos caps Hc. cbn [exec class_matches].
      now rewrite (isdigit_not c "." Hc eq_refl). }
  unfold version_prefix.
  destruct (span_digits text) as [d1 r] eqn:E1.
  destruct d1 as [|c d1]; [reflexivity|].
  cbn [exec class_matches].
  destruct r as [|x r1]; [reflexivity|].
  destruct (Ascii.eqb x "."); [|reflexivity].
  rewrite plus_loop_digits.
  2:{ intros c' rest pos caps Hc. cbn [exec class_matches].
      now rewrite (isdigit_not c' "." Hc eq_refl). }
  destruct (span_digits r1) as [d2 r2] eqn:E2.
  destruct d2 as [|c' d2]; [reflexivity|].
  cbn [exec class_matches].
  destruct r2 as [|y r3]; [reflexivity|].
  destruct (Ascii.eqb y "."); [|reflexivity].
  unfold ver_captures. cbn [String.length].
  repeat f_equal; lia.
Qed.

End Matcher.

Section Conversion.

Import pcrecpp.

Variable cfg : BuildConfig.

Lemma INT_MAX_le_LONG_MAX : INT_MAX <= LONG_MAX cfg.
Proof. unfold INT_MAX, LONG_MAX. destruct (data_model cfg); lia. Qed.

Lemma substring_middle (pre d rest : string) :
  substring (String.length pre) (String.length d) (pre +:+ d +:+ rest) = d.
Proof.
  rewrite <- (Nat.add_0_r (String.length pre)), substring_append_skip.
  apply substring_prefix.
Qed.

Lemma get_middle (pre d rest : string) :
  get (String.length pre + String.length d) (pre +:+ d +:+ rest) = get 0 rest.
Proof.
  rewrite get_append_skip, <- (Nat.add_0_r (String.length d)).
  apply get_append_skip.
Qed.

(** A run of digits followed by a dot converts to its decimal value when
    that fits an [int], and fails to convert otherwise. *)
Lemma parse_int_digits (pre d rest : string) :
  all_digits d = true -> d <> "" ->
  parse_int cfg (pre +:+ d +:+ String "." rest)
            (String.length pre) (String.length pre + String.length d) =
    if decimal d <=? INT_MAX then Some (decimal d) else None.
Proof.
  intros Hd Hn. unfold parse_int, parse_long.
  replace (String.length pre + String.length d - String.length pre)%nat
    with (String.length d) by lia.
  rewrite substring_middle, get_middle.
  pose proof (decimal_nonneg d Hd) as Hpos.
  pose proof (strtol_digits_decimal d 0 Hd) as Hs.
  pose proof INT_MAX_le_LONG_MAX as Hmax.
  destruct d as [|c d]; [congruence|].
  cbn [all_digits] in Hd. apply andb_true_iff in Hd as [Hc Hd].
  set (v := decimal (String c d)) in *.
  set (n := String.length (String c d)) in *.
  assert (Hn0 : (n =? 0)%nat = false) by reflexivity.
  rewrite Hn0, (isdigit_not_space c Hc).
  change (looks_like_digit (get 0 (String "." rest))) with false.
  cbn [andb]. unfold strtol.
  rewrite (isdigit_not c "-" Hc eq_refl), (isdigit_not c "+" Hc eq_refl).
  rewrite Hs, Hn0. rewrite Z.mul_0_l, Z.add_0_l.
  cbn [Nat.add]. unfold LONG_MIN.
  destruct (Z.ltb_spec (LONG_MAX cfg) v) as [Hbig|Hfit].
  - rewrite Nat.eqb_refl. cbn [negb].
    destruct (Z.leb_spec v INT_MAX); [lia|reflexivity].
  - destruct (Z.ltb_spec v (- LONG_MAX cfg - 1)); [lia|].
    rewrite Nat.eqb_refl. cbn [negb].
    destruct (Z.ltb_spec v INT_MIN) as [Hlow|_]; [unfold INT_MIN in Hlow; lia|].
    cbn [orb].
    destruct (Z.ltb_spec INT_MAX v), (Z.leb_spec v INT_MAX); try lia; reflexivity.
Qed.

Lemma PartialMatch_ver_regex text a0 a1 :
  PartialMatch cfg ver_regex text a0 a1 =
    match version_prefix text with
    | None => (false, a0, a1)
    | Some (d1, d2) =>
        if decimal d1 <=? INT_MAX then
          if decimal d2 <=? INT_MAX then (true, decimal d1, decimal d2)
          else (false, decimal d1, a1)
        else (false, a0, a1)
    end.
Proof.
  unfold PartialMatch. rewrite TryMatch_ver_regex.
  destruct (version_prefix text) as [[d1 d2]|] eqn:E; [|reflexivity].
  apply version_prefix_sound in E as (N1 & N2 & H1 & H2 & rest & ->).
  change (NumberOfCapturingGroups ver_regex <? 2)%nat with false. cbv iota.
  unfold Parse, ver_captures.
  rewrite lookup_insert_ne, lookup_insert_ne, lookup_insert_eq by discriminate.
  rewrite lookup_insert_ne, lookup_insert_eq by discriminate.
  rewrite pattern_text.
  pose proof (parse_int_digits "" d1 (d2 +:+ String "." rest) H1 N1) as P1.
  cbn [String.length Nat.add] in P1.
  change ("" +:+ d1 +:+ String "." (d2 +:+ String "." rest))
    with (d1 +:+ String "." (d2 +:+ String "." rest)) in P1.
  rewrite P1.
  destruct (decimal d1 <=? INT_MAX); [|reflexivity].
  pose proof (parse_int_digits (d1 +:+ ".") d2 rest H2 N2) as P2.
  rewrite length_append in P2. cbn [String.length] in P2.
  rewrite append_assoc in P2.
  change ("." +:+ d2 +:+ String "." rest) with (String "." (d2 +:+ String "." rest)) in P2.
  rewrite P2.
  destruct (decimal d2 <=? INT_MAX); reflexivity.
Qed.

(** What [isSameMajorVersion] computes, in terms of the text. *)
Lemma isSameMajorVersion_spec (self : VersionInfoInterface) (otherVersion : string) :
  isSameMajorVersion cfg self otherVersion =
    match version_prefix otherVersion with
    | None => false
    | Some (d1, d2) =>
        (decimal d1 <=? INT_MAX) && (decimal d2 <=? INT_MAX)
        && (decimal d1 =? majorVersion self) && (decimal d2 =? minorVersion self)
    end.
Proof.
  unfold isSameMajorVersion.
  rewrite PartialMatch_ver_regex, version_prefix_c_str.
  destruct (version_prefix otherVersion) as [[d1 d2]|] eqn:E; [|reflexivity].
  apply version_prefix_sound in E as (N1 & N2 & H1 & H2 & _).
  pose proof (decimal_nonneg d1 H1). pose proof (decimal_nonneg d2 H2).
  destruct (decimal d1 <=? INT_MAX); [|reflexivity].
  destruct (decimal d2 <=? INT_MAX).
  - destruct (Z.eqb_spec (decimal d1) (-1)); [lia|].
    destruct (Z.eqb_spec (decimal d2) (-1)); [lia|]. reflexivity.
  - destruct (Z.eqb_spec (decimal d1) (-1)); [lia|].
    reflexivity.
Qed.

End Conversion.

(** C4: when the text starts with digits [d1], a dot, digits [d2] and a dot,
    and both numbers fit an [int], [isSameMajorVersion] is true exactly when
    [d1] is the provider's major and [d2] its minor version; providers that
    agree on major and minor get the same answer, whatever their patch and
    extra versions. *)
Theorem isSameMajorVersion_parsed :
  forall (cfg : BuildConfig) (self : VersionInfoInterface) (otherVersion d1 d2 : string),
    starts_with_version_pattern otherVersion d1 d2 ->
    decimal d1 <= INT_MAX ->
    decimal d2 <= INT_MAX ->
    (isSameMajorVersion cfg self otherVersion = true <->
       decimal d1 = majorVersion self /\ decimal d2 = minorVersion self)
    /\ forall other : VersionInfoInterface,
         majorVersion other = majorVersion self ->
         minorVersion other = minorVersion self ->
         isSameMajorVersion cfg other otherVersion =
         isSameMajorVersion cfg self otherVersion.
Proof.
  intros cfg self otherVersion d1 d2 Hp Hmaj Hmin. split.
  - rewrite isSameMajorVersion_spec, (version_prefix_complete _ _ _ Hp).
    apply Z.leb_le in Hmaj, Hmin. rewrite Hmaj, Hmin. cbn [andb].
    rewrite andb_true_iff, !Z.eqb_eq. reflexivity.
  - intros other Emaj Emin. rewrite !isSameMajorVersion_spec, Emaj, Emin.
    reflexivity.
Qed.

Lemma isSameMajorVersion_parsed_witness :
  starts_with_version_pattern "4.2.1" "4" "2"
  /\ decimal "4" <= INT_MAX
  /\ decimal "2" <= INT_MAX
  /\ (isSameMajorVersion linux_openssl provider_4_2_1 "4.2.1" = true <->
      decimal "4" = majorVersion provider_4_2_1 /\ decimal "2" = minorVersion provider_4_2_1).
Proof.
  assert (Hp : starts_with_version_pattern "4.2.1" "4" "2").
  { repeat split; try discriminate. exists "1". reflexivity. }
  assert (H1 : decimal "4" <= INT_MAX) by (vm_compute; discriminate).
  assert (H2 : decimal "2" <= INT_MAX) by (vm_compute; discriminate).
  repeat (split; [assumption|]).
  apply (isSameMajorVersion_parsed linux_openssl provider_4_2_1 "4.2.1" "4" "2" Hp H1 H2).
Defined.

(** C5: when the text does not start with digits, a dot, digits and a dot,
    [isSameMajorVersion] returns false, for every provider and build; it is a
    total function, so there is no other outcome. *)
Theorem isSameMajorVersion_unparsed :
  forall (cfg : BuildConfig) (self : VersionInfoInterface) (otherVersion : string),
    (forall d1 d2, ~ starts_with_version_pattern otherVersion d1 d2) ->
    isSameMajorVersion cfg self otherVersion = false.
Proof.
  intros cfg self otherVersion Hno. rewrite isSameMajorVersion_spec.
  destruct (version_prefix otherVersion) as [[d1 d2]|] eqn:E; [|reflexivity].
  destruct (Hno d1 d2). apply version_prefix_sound, E.
Qed.

Lemma isSameMajorVersion_unparsed_witness :
  (forall d1 d2, ~ starts_with_version_pattern "10.0" d1 d2)
  /\ isSameMajorVersion linux_openssl provider_4_2_1 "10.0" = false.
Proof.
  assert (H : forall d1 d2, ~ starts_with_version_pattern "10.0" d1 d2).
  { intros d1 d2 Hp. apply version_prefix_complete in Hp.
    vm_compute in Hp. discriminate Hp. }
  split; [exact H|].
  apply (isSameMajorVersion_unparsed linux_openssl provider_4_2_1 "10.0" H).
Defined.

(** The documented examples, and two texts whose numbers do not fit [int]. *)
Example isSameMajorVersion_examples :
  map (isSameMajorVersion linux_openssl provider_4_2_1)
      ["4.2.1"; "4.3.0"; "garbage"; "4.2"; "10.0"; "4.2."; "04.002.x";
       "4294967300.2.1"; "4.99999999999."]
  = [true; false; false; false; false; true; true; false; false].
Proof. vm_compute. reflexivity. Qed.

(** * Further properties of the registry *)

Section RegistryRuns.

Implicit Types (s : Process) (calls : list Call).

Lemma instance_cases action s :
  (exists l, globalVersionInfo s = Ptr l /\ instance action s = Returned l s)
  \/ (globalVersionInfo s = nullptr /\ action = kFallback
      /\ instance action s = static_fallbackVersionInfo s)
  \/ (globalVersionInfo s = nullptr /\ action = kAbortProcess
      /\ instance action s =
         Terminated 40278 {| heap := heap s;
                             globalVersionInfo := globalVersionInfo s;
                             fallbackVersionInfo := fallbackVersionInfo s;
                             log := log s ++ [fatal_record] |}).
Proof.
  unfold instance. destruct (globalVersionInfo s) as [|l] eqn:G.
  - right. destruct action; [right|left]; (split; [reflexivity|]); (split; [reflexivity|]).
    + unfold bind, LOGV2_FATAL, fassertFailed. rewrite G. reflexivity.
    + reflexivity.
  - left. exists l. split; reflexivity.
Qed.

Lemma static_fallbackVersionInfo_frame s :
  exists l s', static_fallbackVersionInfo s = Returned l s'
    /\ globalVersionInfo s' = globalVersionInfo s
    /\ log s' = log s
    /\ fallbackVersionInfo s' = Some l.
Proof.
  unfold static_fallbackVersionInfo.
  destruct (fallbackVersionInfo s) as [l|] eqn:F.
  - exists l, s. repeat split. exact F.
  - eexists _, _. repeat split.
Qed.

(** A returning [instance] call leaves the registry and the log alone. *)
Lemma instance_returned_frame action s l s' :
  instance action s = Returned l s' ->
  globalVersionInfo s' = globalVersionInfo s /\ log s' = log s.
Proof.
  intros H.
  destruct (instance_cases action s) as [(l0 & G & E)|[(G & _ & E)|(G & _ & E)]];
    rewrite E in H.
  - injection H as _ <-. split; reflexivity.
  - destruct (static_fallbackVersionInfo_frame s) as (l1 & s1 & E1 & Hg & Hl & _).
    rewrite E1 in H. injection H as _ <-. split; assumption.
  - discriminate H.
Qed.

Lemma instance_terminated_frame action s id s' :
  instance action s = Terminated id s' ->
  id = 40278 /\ globalVersionInfo s = nullptr /\ action = kAbortProcess
  /\ globalVersionInfo s' = nullptr /\ log s' = log s ++ [fatal_record]
  /\ heap s' = heap s /\ fallbackVersionInfo s' = fallbackVersionInfo s.
Proof.
  intros H.
  destruct (instance_cases action s) as [(l0 & G & E)|[(G & _ & E)|(G & A & E)]];
    rewrite E in H.
  - discriminate H.
  - destruct (static_fallbackVersionInfo_frame s) as (l1 & s1 & E1 & _).
    rewrite E1 in H. discriminate H.
  - injection H as <- <-. cbn. repeat split; assumption.
Qed.

Lemma run_cons_enable handler calls s :
  run (CallEnable handler :: calls) s = run calls (with_globalVersionInfo handler s).
Proof. reflexivity. Qed.

Lemma run_cons_instance action calls s :
  run (CallInstance action :: calls) s =
    match instance action s with
    | Returned r s1 =>
        match run calls s1 with
        | Returned t s2 => Returned ((globalVersionInfo s, r) :: t) s2
        | Terminated id s2 => Terminated id s2
        end
    | Terminated id s1 => Terminated id s1
    end.
Proof.
  cbn [run]. unfold bind, ret. destruct (instance action s) as [r s1|]; [|reflexivity].
  destruct (run calls s1); reflexivity.
Qed.

End RegistryRuns.

(** X1: over any sequence of calls started in any state, a run that returns
    has written nothing to the log, made exactly one entry per [instance]
    call, and leaves [globalVersionInfo] at the pointer of the last [enable]
    call (the initial one when there was none). *)
Theorem run_returned_last_enable_no_log :
  forall (calls : list Call) (s s' : Process) (t : list (pointer * loc)),
    run calls s = Returned t s' ->
    globalVersionInfo s' = last_enabled calls (globalVersionInfo s)
    /\ log s' = log s
    /\ length t = length (List.filter (fun c => match c with CallInstance _ => true | _ => false end) calls).
Proof.
  induction calls as [|c calls IH]; intros s s' t H.
  - injection H as <- <-. repeat split.
  - destruct c as [handler|action].
    + rewrite run_cons_enable in H. destruct (IH _ _ _ H) as (Hg & Hl & Hn).
      repeat split; assumption.
    + rewrite run_cons_instance in H.
      destruct (instance action s) as [r s1|] eqn:E; [|discriminate H].
      destruct (run calls s1) as [t1 s2|] eqn:R; [|discriminate H].
      injection H as <- <-.
      destruct (instance_returned_frame _ _ _ _ E) as [Hg1 Hl1].
      destruct (IH _ _ _ R) as (Hg & Hl & Hn).
      cbn [last_enabled fold_left List.filter length].
      unfold last_enabled in Hg. rewrite Hg, Hl, Hg1, Hl1, Hn. repeat split.
Qed.

Lemma run_returned_last_enable_no_log_witness :
  run [CallInstance kFallback; CallEnable (Ptr 5%positive); CallInstance kAbortProcess]
      (startup ∅)
  = Returned [(nullptr, fresh (dom (∅ : gmap loc VersionInfoInterface))); (Ptr 5%positive, 5%positive)]
      {| heap := <[fresh (dom (∅ : gmap loc VersionInfoInterface)) := FallbackVersionInfo]> ∅;
         globalVersionInfo := Ptr 5%positive;
         fallbackVersionInfo := Some (fresh (dom (∅ : gmap loc VersionInfoInterface)));
         log := [] |}
  /\ Ptr 5%positive =
     last_enabled [CallInstance kFallback; CallEnable (Ptr 5%positive); CallInstance kAbortProcess]
                  nullptr.
Proof.
  assert (R : run [CallInstance kFallback; CallEnable (Ptr 5%positive); CallInstance kAbortProcess]
      (startup ∅)
  = Returned [(nullptr, fresh (dom (∅ : gmap loc VersionInfoInterface))); (Ptr 5%positive, 5%positive)]
      {| heap := <[fresh (dom (∅ : gmap loc VersionInfoInterface)) := FallbackVersionInfo]> ∅;
         globalVersionInfo := Ptr 5%positive;
         fallbackVersionInfo := Some (fresh (dom (∅ : gmap loc VersionInfoInterface)));
         log := [] |}) by reflexivity.
  split; [exact R|].
  exact (proj1 (run_returned_last_enable_no_log _ _ _ _ R)).
Defined.

(** X2: a run ends the process only at an [instance] call with the fatal
    action that finds the registry unset: the message number is 40278, the
    log has grown by exactly the diagnostic record, and the heap and the
    local static are as the calls before left them. *)
Theorem run_terminated_only_fatal :
  forall (calls : list Call) (s s' : Process) (id : Z),
    run calls s = Terminated id s' ->
    id = 40278
    /\ log s' = log s ++ [fatal_record]
    /\ globalVersionInfo s' = nullptr
    /\ In (CallInstance kAbortProcess) calls.
Proof.
  induction calls as [|c calls IH]; intros s s' id H.
  - discriminate H.
  - destruct c as [handler|action].
    + rewrite run_cons_enable in H. destruct (IH _ _ _ H) as (Hi & Hl & Hg & Hin).
      repeat split; try assumption. now right.
    + rewrite run_cons_instance in H.
      destruct (instance action s) as [r s1|id1 s1] eqn:E.
      * destruct (run calls s1) as [t1 s2|id2 s2] eqn:R; [discriminate H|].
        injection H as <- <-.
        destruct (instance_returned_frame _ _ _ _ E) as [_ Hl1].
        destruct (IH _ _ _ R) as (Hi & Hl & Hg & Hin).
        rewrite <- Hl1. repeat split; try assumption. now right.
      * injection H as <- <-.
        destruct (instance_terminated_frame _ _ _ _ E) as (Hi & _ & -> & Hg & Hl & _).
        repeat split; try assumption. now left.
Qed.

Lemma run_terminated_only_fatal_witness :
  run [CallInstance kFallback; CallInstance kAbortProcess; CallEnable (Ptr 5%positive)]
      (startup ∅)
  = Terminated 40278
      {| heap := <[fresh (dom (∅ : gmap loc VersionInfoInterface)) := FallbackVersionInfo]> ∅;
         globalVersionInfo := nullptr;
         fallbackVersionInfo := Some (fresh (dom (∅ : gmap loc VersionInfoInterface)));
         log := [fatal_record] |}
  /\ In (CallInstance kAbortProcess)
        [CallInstance kFallback; CallInstance kAbortProcess; CallEnable (Ptr 5%positive)].
Proof.
  assert (R : run [CallInstance kFallback; CallInstance kAbortProcess; CallEnable (Ptr 5%positive)]
      (startup ∅)
  = Terminated 40278
      {| heap := <[fresh (dom (∅ : gmap loc VersionInfoInterface)) := FallbackVersionInfo]> ∅;
         globalVersionInfo := nullptr;
         fallbackVersionInfo := Some (fresh (dom (∅ : gmap loc VersionInfoInterface)));
         log := [fatal_record] |}) by reflexivity.
  split; [exact R|].
  exact (proj2 (proj2 (proj2 (run_terminated_only_fatal _ _ _ _ R)))).
Defined.

Section FallbackObject.

Variable h : gmap loc VersionInfoInterface.

Abbreviation f := (fresh (dom h)).

Lemma instance_fallback_inv action s :
  fallback_inv h s ->
  fallback_inv h (final_state (instance action s))
  /\ (fallbackVersionInfo s = Some f ->
      fallbackVersionInfo (final_state (instance action s)) = Some f)
  /\ forall r s', instance action s = Returned r s' ->
       globalVersionInfo s = nullptr -> r = f /\ fallbackVersionInfo s' = Some f.
Proof.
  intros I.
  destruct (instance_cases action s) as [(l0 & G & E)|[(G & _ & E)|(G & _ & E)]];
    rewrite E.
  - cbn. repeat split; try assumption; congruence.
  - destruct I as [[F H]|[F H]].
    + rewrite (static_fallbackVersionInfo_first s F), H. cbn.
      split; [right; split; reflexivity|]. split; [reflexivity|].
      intros r s' Hr _. injection Hr as <- <-. split; reflexivity.
    + rewrite (static_fallbackVersionInfo_again s f F). cbn.
      split; [right; split; assumption|]. split; [trivial|].
      intros r s' Hr _. injection Hr as <- <-. split; [reflexivity|assumption].
  - cbn. split; [exact I|]. split; [trivial|]. intros r s' Hr. discriminate Hr.
Qed.

Lemma run_fallback_inv calls s :
  fallback_inv h s ->
  fallback_inv h (final_state (run calls s))
  /\ (fallbackVersionInfo s = Some f ->
      fallbackVersionInfo (final_state (run calls s)) = Some f)
  /\ forall t s', run calls s = Returned t s' ->
       Forall (fun c => fst c = nullptr -> snd c = f /\ fallbackVersionInfo s' = Some f) t.
Proof.
  revert s. induction calls as [|c calls IH]; intros s I.
  - cbn. split; [exact I|]. split; [trivial|].
    intros t s' Hr. injection Hr as <- <-. constructor.
  - destruct c as [handler|action].
    + rewrite run_cons_enable.
      assert (I' : fallback_inv h (with_globalVersionInfo handler s)) by exact I.
      destruct (IH _ I') as (IA & IB & IC). repeat split; assumption.
    + rewrite run_cons_instance.
      destruct (instance_fallback_inv action s I) as (JA & JB & JC).
      destruct (instance action s) as [r s1|id s1] eqn:E; cbn in JA, JB.
      * destruct (IH s1 JA) as (IA & IB & IC).
        destruct (run calls s1) as [t1 s2|id2 s2] eqn:R; cbn in IA, IB |- *.
        -- split; [exact IA|]. split; [intros F; apply IB, JB, F|].
           intros t s' Hr. injection Hr as <- <-.
           constructor; [|apply IC; reflexivity].
           cbn. intros G. destruct (JC r s1 eq_refl G) as [-> F1].
           split; [reflexivity|apply IB, F1].
        -- split; [exact IA|]. split; [intros F; apply IB, JB, F|].
           intros t s' Hr. discriminate Hr.
      * cbn. split; [exact JA|]. split; [exact JB|]. intros t s' Hr. discriminate Hr.
Qed.

End FallbackObject.

(** X3: whatever the calls made since program start, [instance] allocates at
    most one object, the fallback, and never changes or removes an object of
    the host; every call that found the registry unset returned that same
    object, also across [enable] calls in between, and that object is a
    [FallbackVersionInfo]. *)
Theorem fallback_allocated_once :
  forall (h : gmap loc VersionInfoInterface) (calls : list Call),
    let f := fresh (dom h) in
    let o := run calls (startup h) in
    (heap (final_state o) = h \/ heap (final_state o) = <[f := FallbackVersionInfo]> h)
    /\ (forall l obj, h !! l = Some obj -> heap (final_state o) !! l = Some obj)
    /\ match o with
       | Returned t s' =>
           Forall (fun c => fst c = nullptr ->
                            snd c = f /\ heap s' !! f = Some FallbackVersionInfo) t
       | Terminated _ _ => True
       end.
Proof.
  intros h calls f o.
  assert (I0 : fallback_inv h (startup h)) by (left; split; reflexivity).
  destruct (run_fallback_inv h calls (startup h) I0) as (IA & _ & IC).
  fold o in IA, IC.
  assert (Hheap : heap (final_state o) = h
                  \/ heap (final_state o) = <[f := FallbackVersionInfo]> h).
  { destruct IA as [[_ H]|[_ H]]; [left|right]; exact H. }
  split; [exact Hheap|]. split.
  - intros l obj Hl. destruct Hheap as [->| ->]; [exact Hl|].
    rewrite lookup_insert_ne; [exact Hl|].
    intros <-. unfold f in Hl. rewrite fresh_not_allocated in Hl. discriminate Hl.
  - destruct o as [t s'|]; [|exact I].
    specialize (IC t s' eq_refl). cbn in IA.
    eapply Forall_impl; [exact IC|]. cbn. intros c Hc G.
    destruct (Hc G) as [-> F]. split; [reflexivity|].
    destruct IA as [[F' _]|[_ H]]; [congruence|].
    rewrite H. apply lookup_insert_eq.
Qed.

(** X4: while no provider is registered, a sequence of [instance] calls ends
    the process exactly when one of them asks for the fatal action; the
    fallback calls before it return and leave the registry unset, so using the
    fallback never counts as registering. *)
Theorem unregistered_instances_terminate_iff :
  forall (actions : list NotEnabledAction) (s : Process),
    globalVersionInfo s = nullptr ->
    (In kAbortProcess actions ->
       exists s', run (map CallInstance actions) s = Terminated 40278 s')
    /\ (~ In kAbortProcess actions ->
       exists t s', run (map CallInstance actions) s = Returned t s'
                    /\ globalVersionInfo s' = nullptr
                    /\ length t = length actions).
Proof.
  induction actions as [|a actions IH]; intros s G.
  - split; [intros []|]. intros _. exists [], s. repeat split. exact G.
  - cbn [map]. rewrite run_cons_instance.
    destruct (instance_cases a s) as [(l0 & G' & E)|[(_ & -> & E)|(_ & -> & E)]].
    + congruence.
    + destruct (static_fallbackVersionInfo_frame s) as (l1 & s1 & E1 & Hg & _).
      rewrite E, E1. rewrite G in Hg. destruct (IH s1 Hg) as [IA IB]. split.
      * intros [[=]|Hin]. destruct (IA Hin) as [s' ->]. eauto.
      * intros Hn. destruct IB as (t & s' & -> & Hg' & Hlen).
        { intros Hin. apply Hn. now right. }
        eexists _, _. repeat split; [exact Hg'|]. cbn. now rewrite Hlen.
    + rewrite E. split; [eauto|]. intros Hn. destruct Hn. now left.
Qed.

Lemma unregistered_instances_terminate_iff_witness :
  globalVersionInfo (startup ∅) = nullptr
  /\ exists s', run (map CallInstance [kFallback; kFallback; kAbortProcess; kFallback])
                    (startup ∅) = Terminated 40278 s'.
Proof.
  split; [reflexivity|].
  apply (unregistered_instances_terminate_iff
           [kFallback; kFallback; kAbortProcess; kFallback] (startup ∅) eq_refl).
  cbn. auto.
Defined.

(** * Further properties of the report and the log records *)

Section ReportLookup.

Lemma getField_env (fields : list BuildInfoField) (k : string) :
  getField (map (fun e => (key e, BString (value e))) (List.filter inBuildInfo fields)) k =
  option_map (fun e => BString (value e))
             (List.find (fun e => inBuildInfo e && String.eqb (key e) k) fields).
Proof.
  induction fields as [|e fields IH]; [reflexivity|].
  cbn [List.filter List.find]. destruct (inBuildInfo e); cbn [andb map getField fst snd].
  - destruct (String.eqb (key e) k); [reflexivity|exact IH].
  - exact IH.
Qed.

Lemma filter_counts (fields : list BuildInfoField) :
  (length (List.filter envFilter fields) <= length (List.filter inBuildInfo fields)
   <= length fields)%nat
  /\ (List.filter inBuildInfo fields = [] <->
      Forall (fun e => inBuildInfo e = false) fields)
  /\ (length (List.filter envFilter fields) = length (List.filter inBuildInfo fields) <->
      Forall (fun e => inBuildInfo e = true -> empty (value e) = false) fields).
Proof.
  induction fields as [|e fields (IHle & IHnil & IHeq)].
  - cbn. repeat split; try lia; constructor.
  - cbn [List.filter].
    assert (Ee : envFilter e = inBuildInfo e && negb (empty (value e))) by reflexivity.
    rewrite !Ee. clear Ee.
    destruct (inBuildInfo e) eqn:Hi; cbn [andb].
    + destruct (empty (value e)) eqn:He; cbn [negb length].
      * split; [lia|]. split.
        -- split; [discriminate|]. intros H. inversion H; congruence.
        -- split; [lia|]. intros H. inversion H as [|x l Hx Hl]; subst.
           specialize (Hx Hi). congruence.
      * split; [lia|]. split.
        -- split; [discriminate|]. intros H. inversion H; congruence.
        -- split.
           ++ intros H. constructor; [auto|]. apply IHeq. lia.
           ++ intros H. inversion H; subst. f_equal. now apply IHeq.
    + split; [cbn [length]; lia|]. split.
      * split.
        -- intros H. constructor; [exact Hi|now apply IHnil].
        -- intros H. inversion H; subst. now apply IHnil.
      * split.
        -- intros H. constructor; [congruence|now apply IHeq].
        -- intros H. inversion H; subst. now apply IHeq.
Qed.

Lemma report_buildEnvironment_eq cfg self :
  report_buildEnvironment cfg self =
  Some (BObject (map (fun e => (key e, BString (value e)))
                     (List.filter inBuildInfo (buildInfo self)))).
Proof.
  unfold report_buildEnvironment, appendBuildInfo. rewrite env_loop.
  unfold append. destruct (_WIN32 cfg); reflexivity.
Qed.

Lemma logged_environment_eq cfg self s :
  logged_environment cfg self s =
  Some (AttrObjSeq (map envFormatter (List.filter envFilter (buildInfo self)))).
Proof.
  unfold logged_environment, logBuildInfo, LOGV2. cbn [log].
  rewrite last_snoc. cbn [log_attrs]. unfold add.
  destruct (MONGO_CONFIG_SSL cfg) as [[| |]|]; reflexivity.
Qed.

End ReportLookup.

(** X5: the top-level names of the report are pairwise distinct, so a lookup
    by name finds one field, and it holds what the provider and the build
    say: the provider's strings, the modules as an array of strings, the four
    version numbers in the order major, minor, patch, extra, the pointer width
    in bits, the debug flag and the maximum document size; [targetMinOS] is
    found exactly in a Windows build. *)
Theorem appendBuildInfo_lookup :
  forall (cfg : BuildConfig) (self : VersionInfoInterface),
    let r := appendBuildInfo cfg self [] in
    NoDup (fieldNames r)
    /\ getField r "version" = Some (BString (version self))
    /\ getField r "gitVersion" = Some (BString (gitVersion self))
    /\ getField r "targetMinOS" =
         (if _WIN32 cfg then Some (BString (targetMinOS self)) else None)
    /\ getField r "modules" = Some (BArray (map BString (modules self)))
    /\ getField r "allocator" = Some (BString (allocator self))
    /\ getField r "javascriptEngine" = Some (BString (jsEngine self))
    /\ getField r "versionArray" =
         Some (BArray [BInt (majorVersion self); BInt (minorVersion self);
                       BInt (patchVersion self); BInt (extraVersion self)])
    /\ getField r "bits" = Some (BInt (sizeof_void_ptr cfg * 8))
    /\ getField r "debug" = Some (BBool (kDebugBuild cfg))
    /\ getField r "maxBsonObjectSize" = Some (BInt (BSONObjMaxUserSize cfg)).
Proof.
  intros cfg self r. unfold r, appendBuildInfo, append, fieldNames.
  destruct (_WIN32 cfg); (split; [|repeat split]);
    cbn [map app fst]; apply (bool_decide_unpack _); vm_compute; exact I.
Qed.

(** X6: a lookup by name in the report's [buildEnvironment] gives the value
    of the first field of [buildInfo()] that has that name and is marked for
    the report; fields not marked are never found, whatever their name. *)
Theorem buildEnvironment_lookup :
  forall (cfg : BuildConfig) (self : VersionInfoInterface) (k : string),
    exists env,
      report_buildEnvironment cfg self = Some (BObject env)
      /\ getField env k =
           option_map (fun e => BString (value e))
             (List.find (fun e => inBuildInfo e && String.eqb (key e) k) (buildInfo self)).
Proof.
  intros cfg self k. eexists. split; [apply report_buildEnvironment_eq|].
  apply getField_env.
Qed.

(** X7: the log record's [environment] never has more entries than the
    report's [buildEnvironment], which never has more than [buildInfo()];
    [buildEnvironment] is the empty document exactly when no field is marked
    for the report, and the two have the same number of entries exactly when
    no marked field has an empty value. *)
Theorem environment_sizes :
  forall (cfg : BuildConfig) (self : VersionInfoInterface) (s : Process),
    exists env seq,
      report_buildEnvironment cfg self = Some (BObject env)
      /\ logged_environment cfg self s = Some (AttrObjSeq seq)
      /\ (length seq <= length env <= length (buildInfo self))%nat
      /\ (env = [] <-> Forall (fun e => inBuildInfo e = false) (buildInfo self))
      /\ (length seq = length env <->
          Forall (fun e => inBuildInfo e = true -> empty (value e) = false)
                 (buildInfo self)).
Proof.
  intros cfg self s. eexists _, _.
  split; [apply report_buildEnvironment_eq|].
  split; [apply logged_environment_eq|].
  destruct (filter_counts (buildInfo self)) as (Hle & Hnil & Heq).
  rewrite !length_map. split; [exact Hle|]. split; [|exact Heq].
  rewrite <- Hnil. split.
  - intros H. apply map_eq_nil in H. exact H.
  - intros ->. reflexivity.
Qed.

Section Logging.

(** [instance] does not look at the log. *)
Lemma instance_ignores_log action (s1 s2 : Process) :
  heap s1 = heap s2 ->
  globalVersionInfo s1 = globalVersionInfo s2 ->
  fallbackVersionInfo s1 = fallbackVersionInfo s2 ->
  observed (instance action s1) = observed (instance action s2).
Proof.
  intros Hh Hg Hf. unfold instance. rewrite Hg.
  destruct (globalVersionInfo s2); [|reflexivity].
  destruct action; [reflexivity|].
  unfold static_fallbackVersionInfo. rewrite Hf.
  destruct (fallbackVersionInfo s2); [reflexivity|].
  unfold new_FallbackVersionInfo. rewrite Hh. reflexivity.
Qed.

Lemma LOGV2_spec id msg attrs (s : Process) :
  LOGV2 id msg attrs s =
  Returned tt {| heap := heap s;
                 globalVersionInfo := globalVersionInfo s;
                 fallbackVersionInfo := fallbackVersionInfo s;
                 log := log s ++ [{| log_id := id; log_severity := Severity_Log;
                                     log_message := msg; log_attrs := attrs |}] |}.
Proof. reflexivity. Qed.

Lemma logBuildInfo_LOGV2 cfg self (s : Process) :
  exists attrs,
    logBuildInfo cfg self s = LOGV2 23403 "Build Info" attrs s
    /\ map fst attrs =
         ["version"; "gitVersion"]
         ++ match MONGO_CONFIG_SSL cfg with
            | Some MONGO_CONFIG_SSL_PROVIDER_OPENSSL => ["openSSLVersion"]
            | _ => []
            end
         ++ ["allocator"; "modules"; "environment"]
    /\ getAttr attrs "version" = Some (AttrString (version self))
    /\ getAttr attrs "gitVersion" = Some (AttrString (gitVersion self))
    /\ getAttr attrs "allocator" = Some (AttrString (allocator self))
    /\ getAttr attrs "modules" = Some (AttrStringSeq (modules self))
    /\ getAttr attrs "openSSLVersion" =
         match MONGO_CONFIG_SSL cfg with
         | Some MONGO_CONFIG_SSL_PROVIDER_OPENSSL => Some (AttrString (SSLeay_version cfg))
         | _ => None
         end.
Proof.
  eexists. split; [reflexivity|]. unfold add.
  destruct (MONGO_CONFIG_SSL cfg) as [[| |]|] eqn:H; repeat split.
  cbn. now rewrite (openSSLVersion_default cfg H).
Qed.

End Logging.

(** X8: [logBuildInfo] always returns; it adds exactly one record to the log,
    number 23403 "Build Info", and touches nothing else of the process; the
    record's attributes are, in order, version, gitVersion, openSSLVersion
    (only in an OpenSSL build), allocator, modules and environment. *)
Theorem logBuildInfo_record :
  forall (cfg : BuildConfig) (self : VersionInfoInterface) (s : Process),
    exists r,
      logBuildInfo cfg self s =
        Returned tt {| heap := heap s;
                       globalVersionInfo := globalVersionInfo s;
                       fallbackVersionInfo := fallbackVersionInfo s;
                       log := log s ++ [r] |}
      /\ log_id r = 23403
      /\ log_severity r = Severity_Log
      /\ log_message r = "Build Info"
      /\ map fst (log_attrs r) =
           ["version"; "gitVersion"]
           ++ match MONGO_CONFIG_SSL cfg with
              | Some MONGO_CONFIG_SSL_PROVIDER_OPENSSL => ["openSSLVersion"]
              | _ => []
              end
           ++ ["allocator"; "modules"; "environment"].
Proof.
  intros cfg self s.
  destruct (logBuildInfo_LOGV2 cfg self s) as (attrs & E & Hn & _).
  rewrite E, LOGV2_spec. eexists. split; [reflexivity|].
  repeat split. exact Hn.
Qed.

(** X9: writing the build info or the target OS record does not disturb the
    registry: an [instance] call made right after either of them gives the
    caller what it would have given without the logging, the same object or
    the same fatal end. *)
Theorem logging_leaves_registry :
  forall (cfg : BuildConfig) (self : VersionInfoInterface)
         (action : NotEnabledAction) (s : Process),
    observed ((logBuildInfo cfg self ;;; instance action) s) = observed (instance action s)
    /\ observed ((logTargetMinOS self ;;; instance action) s) = observed (instance action s).
Proof.
  intros cfg self action s. split.
  - destruct (logBuildInfo_LOGV2 cfg self s) as (attrs & E & _).
    unfold bind. rewrite E, LOGV2_spec.
    apply instance_ignores_log; reflexivity.
  - unfold bind, logTargetMinOS. rewrite LOGV2_spec.
    apply instance_ignores_log; reflexivity.
Qed.

(** X10: the report and the log record made from one provider agree: the log
    record's version, gitVersion, allocator and modules are the values the
    report holds under the same names, and in an OpenSSL build its
    openSSLVersion is the report's [openssl.running]; in every other build the
    log record has no openSSLVersion. *)
Theorem report_and_log_agree :
  forall (cfg : BuildConfig) (self : VersionInfoInterface) (s : Process),
    let r := appendBuildInfo cfg self [] in
    exists rec,
      logged_record cfg self s = Some rec
      /\ (forall name, In name ["version"; "gitVersion"; "allocator"] ->
            exists v, getField r name = Some (BString v)
                      /\ getAttr (log_attrs rec) name = Some (AttrString v))
      /\ (exists ms, getField r "modules" = Some (BArray (map BString ms))
                     /\ getAttr (log_attrs rec) "modules" = Some (AttrStringSeq ms))
      /\ match MONGO_CONFIG_SSL cfg with
         | Some MONGO_CONFIG_SSL_PROVIDER_OPENSSL =>
             exists o v, getField r "openssl" = Some (BObject o)
                         /\ getField o "running" = Some (BString v)
                         /\ getAttr (log_attrs rec) "openSSLVersion" = Some (AttrString v)
         | _ => getAttr (log_attrs rec) "openSSLVersion" = None
         end.
Proof.
  intros cfg self s r.
  destruct (logBuildInfo_LOGV2 cfg self s) as (attrs & E & _ & Hv & Hg & Ha & Hm & Ho).
  unfold logged_record. rewrite E, LOGV2_spec. cbn [log]. rewrite last_snoc.
  eexists. split; [reflexivity|]. cbn [log_attrs].
  assert (R : getField r "version" = Some (BString (version self))
              /\ getField r "gitVersion" = Some (BString (gitVersion self))
              /\ getField r "allocator" = Some (BString (allocator self))
              /\ getField r "modules" = Some (BArray (map BString (modules self)))
              /\ getField r "openssl" =
                   Some (BObject
                     match MONGO_CONFIG_SSL cfg with
                     | Some MONGO_CONFIG_SSL_PROVIDER_OPENSSL =>
                         [("running", BString (openSSLVersion cfg "" ""));
                          ("compiled", BString (OPENSSL_VERSION_TEXT cfg))]
                     | Some MONGO_CONFIG_SSL_PROVIDER_WINDOWS =>
                         [("running", BString "Windows SChannel")]
                     | Some MONGO_CONFIG_SSL_PROVIDER_APPLE =>
                         [("running", BString "Apple Secure Transport")]
                     | None =>
                         [("running", BString "disabled"); ("compiled", BString "disabled")]
                     end)).
  { unfold r, appendBuildInfo, append.
    destruct (_WIN32 cfg); repeat split;
      destruct (MONGO_CONFIG_SSL cfg) as [[| |]|]; reflexivity. }
  destruct R as (Rv & Rg & Ra & Rm & Ro).
  split; [|split].
  - intros name [<-|[<-|[<-|[]]]]; eexists; split; eassumption.
  - eexists. split; eassumption.
  - destruct (MONGO_CONFIG_SSL cfg) as [[| |]|] eqn:H; try exact Ho.
    eexists _, _. split; [exact Ro|]. split; [reflexivity|].
    rewrite (openSSLVersion_default cfg H). exact Ho.
Qed.

(** * Further properties of the front-end strings *)

Lemma append_inj_l (p a b : string) : p +:+ a = p +:+ b -> a = b.
Proof.
  induction p as [|c p IH]; [trivial|].
  change (String c (p +:+ a) = String c (p +:+ b) -> a = b).
  intros H. injection H as H. exact (IH H).
Qed.

Lemma append_eq_empty (a b : string) : a +:+ b = "" <-> a = "" /\ b = "".
Proof.
  split.
  - destruct a as [|c a]; [intros H; split; [reflexivity|exact H]|].
    intros H. discriminate H.
  - intros [-> ->]. reflexivity.
Qed.

(** X11: each front-end string, and [makeVersionString] for a given binary
    name, determines the provider's version text; the three front ends never
    produce the same string, whatever the providers. *)
Theorem front_end_strings_identify :
  forall (p q : VersionInfoInterface),
    (mongoShellVersion p = mongoShellVersion q -> version p = version q)
    /\ (mongosVersion p = mongosVersion q -> version p = version q)
    /\ (mongodVersion p = mongodVersion q -> version p = version q)
    /\ (forall binaryName,
          makeVersionString p binaryName = makeVersionString q binaryName ->
          version p = version q)
    /\ mongoShellVersion p <> mongosVersion q
    /\ mongoShellVersion p <> mongodVersion q
    /\ mongosVersion p <> mongodVersion q.
Proof.
  intros p q. unfold mongoShellVersion, mongosVersion, mongodVersion, makeVersionString.
  split; [apply append_inj_l|]. split; [apply append_inj_l|].
  split; [apply append_inj_l|].
  split; [intros n H; apply append_inj_l in H; apply append_inj_l in H; exact H|].
  repeat split; intros H; discriminate H.
Qed.

(** X12: [openSSLVersion] gives the empty text in every build that does not
    use OpenSSL, whatever prefix and suffix it is given; in an OpenSSL build
    it gives the prefix, the running library's version text and the suffix,
    so there it is empty only when all three are. *)
Theorem openSSLVersion_empty_iff :
  forall (cfg : BuildConfig) (prefix suffix : string),
    openSSLVersion cfg prefix suffix = "" <->
    (MONGO_CONFIG_SSL cfg <> Some MONGO_CONFIG_SSL_PROVIDER_OPENSSL
     \/ (prefix = "" /\ SSLeay_version cfg = "" /\ suffix = "")).
Proof.
  intros cfg prefix suffix. unfold openSSLVersion.
  destruct (MONGO_CONFIG_SSL cfg) as [[| |]|].
  - rewrite !append_eq_empty. split.
    + intros H. right. exact H.
    + intros [H|H]; [congruence|exact H].
  - split; [intros _; left; discriminate|reflexivity].
  - split; [intros _; left; discriminate|reflexivity].
  - split; [intros _; left; discriminate|reflexivity].
Qed.

(** * Further properties of the version comparator *)

Section ComparatorFacts.

Lemma decimal_leading_zero (d : string) : decimal (String "0" d) = decimal d.
Proof. cbn [decimal]. change (digit_value "0") with 0. lia. Qed.

Lemma pattern_leading_zeros (d1 d2 rest : string) :
  starts_with_version_pattern (d1 +:+ "." +:+ d2 +:+ "." +:+ rest) d1 d2 ->
  starts_with_version_pattern
    (String "0" d1 +:+ "." +:+ String "0" d2 +:+ "." +:+ rest) (String "0" d1) (String "0" d2).
Proof.
  intros (N1 & N2 & H1 & H2 & _).
  repeat split; try discriminate; try (cbn [all_digits]; assumption).
  exists rest. reflexivity.
Qed.

Lemma version_prefix_not_digit (s : string) :
  match s with String c _ => isdigit c = false | EmptyString => True end ->
  version_prefix s = None.
Proof.
  destruct s as [|c s]; [reflexivity|]. intros H.
  unfold version_prefix. cbn [span_digits]. rewrite H. reflexivity.
Qed.

End ComparatorFacts.

(** X13: [isSameMajorVersion] is true exactly when the text starts with
    digits, a dot, digits and a dot, the two numbers are the provider's major
    and minor version, and these are therefore between 0 and [INT_MAX]. *)
Theorem isSameMajorVersion_true_iff :
  forall (cfg : BuildConfig) (self : VersionInfoInterface) (otherVersion : string),
    isSameMajorVersion cfg self otherVersion = true <->
    exists d1 d2,
      starts_with_version_pattern otherVersion d1 d2
      /\ decimal d1 = majorVersion self
      /\ decimal d2 = minorVersion self
      /\ 0 <= majorVersion self <= INT_MAX
      /\ 0 <= minorVersion self <= INT_MAX.
Proof.
  intros cfg self s. rewrite isSameMajorVersion_spec. split.
  - destruct (version_prefix s) as [[d1 d2]|] eqn:E; [|discriminate].
    intros H. apply andb_true_iff in H as [H E2]. apply andb_true_iff in H as [H E1].
    apply andb_true_iff in H as [L1 L2].
    apply Z.eqb_eq in E1, E2. apply Z.leb_le in L1, L2.
    apply version_prefix_sound in E.
    pose proof E as (_ & _ & D1 & D2 & _).
    apply decimal_nonneg in D1, D2.
    exists d1, d2. split; [exact E|]. repeat split; try assumption; lia.
  - intros (d1 & d2 & Hp & E1 & E2 & [_ L1] & [_ L2]).
    rewrite (version_prefix_complete _ _ _ Hp), E1, E2, !Z.eqb_refl.
    apply Z.leb_le in L1, L2. now rewrite L1, L2.
Qed.

(** X14: a text that starts with the pattern but whose major or minor number
    does not fit an [int] is never the same major version: the conversion
    fails, it does not wrap around. *)
Theorem isSameMajorVersion_out_of_range :
  forall (cfg : BuildConfig) (self : VersionInfoInterface) (otherVersion d1 d2 : string),
    starts_with_version_pattern otherVersion d1 d2 ->
    INT_MAX < decimal d1 \/ INT_MAX < decimal d2 ->
    isSameMajorVersion cfg self otherVersion = false.
Proof.
  intros cfg self s d1 d2 Hp Hbig.
  rewrite isSameMajorVersion_spec, (version_prefix_complete _ _ _ Hp).
  destruct (Z.leb_spec (decimal d1) INT_MAX), (Z.leb_spec (decimal d2) INT_MAX);
    try reflexivity.
  lia.
Qed.

Lemma isSameMajorVersion_out_of_range_witness :
  starts_with_version_pattern "4294967300.2.1" "4294967300" "2"
  /\ (INT_MAX < decimal "4294967300" \/ INT_MAX < decimal "2")
  /\ isSameMajorVersion windows_schannel provider_4_2_1 "4294967300.2.1" = false.
Proof.
  assert (Hp : starts_with_version_pattern "4294967300.2.1" "4294967300" "2").
  { repeat split; try discriminate. exists "1". reflexivity. }
  assert (Hb : INT_MAX < decimal "4294967300" \/ INT_MAX < decimal "2").
  { left. vm_compute. reflexivity. }
  split; [exact Hp|]. split; [exact Hb|].
  apply (isSameMajorVersion_out_of_range windows_schannel provider_4_2_1 _ _ _ Hp Hb).
Defined.

(** X15: a provider whose major or minor version is negative is never the
    same major version as any text; in particular a provider answering -1,
    the value the function uses for "not parsed", does not match a text that
    cannot be parsed. *)
Theorem isSameMajorVersion_negative_provider :
  forall (cfg : BuildConfig) (self : VersionInfoInterface) (otherVersion : string),
    majorVersion self < 0 \/ minorVersion self < 0 ->
    isSameMajorVersion cfg self otherVersion = false.
Proof.
  intros cfg self s Hneg. rewrite isSameMajorVersion_spec.
  destruct (version_prefix s) as [[d1 d2]|] eqn:E; [|reflexivity].
  apply version_prefix_sound in E as (_ & _ & D1 & D2 & _).
  apply decimal_nonneg in D1, D2.
  destruct (Z.eqb_spec (decimal d1) (majorVersion self)),
           (Z.eqb_spec (decimal d2) (minorVersion self));
    rewrite ?andb_false_r; try reflexivity.
  lia.
Qed.

Lemma isSameMajorVersion_negative_provider_witness :
  (majorVersion provider_minus_one < 0 \/ minorVersion provider_minus_one < 0)
  /\ isSameMajorVersion linux_openssl provider_minus_one "garbage" = false.
Proof.
  assert (H : majorVersion provider_minus_one < 0 \/ minorVersion provider_minus_one < 0).
  { left. reflexivity. }
  split; [exact H|].
  apply (isSameMajorVersion_negative_provider linux_openssl provider_minus_one "garbage" H).
Defined.

(** X16: only the text up to the second dot counts: two texts that start with
    the same digits, dot, digits, dot get the same answer, whatever follows
    (patch number, suffix, nothing). *)
Theorem isSameMajorVersion_ignores_suffix :
  forall (cfg : BuildConfig) (self : VersionInfoInterface)
         (otherVersion d1 d2 rest : string),
    starts_with_version_pattern otherVersion d1 d2 ->
    isSameMajorVersion cfg self (d1 +:+ "." +:+ d2 +:+ "." +:+ rest) =
    isSameMajorVersion cfg self otherVersion.
Proof.
  intros cfg self s d1 d2 rest Hp.
  assert (Hp' : starts_with_version_pattern (d1 +:+ "." +:+ d2 +:+ "." +:+ rest) d1 d2).
  { destruct Hp as (N1 & N2 & H1 & H2 & _). repeat split; try assumption.
    exists rest. reflexivity. }
  rewrite !isSameMajorVersion_spec.
  now rewrite (version_prefix_complete _ _ _ Hp), (version_prefix_complete _ _ _ Hp').
Qed.

Lemma isSameMajorVersion_ignores_suffix_witness :
  starts_with_version_pattern "4.2.1" "4" "2"
  /\ isSameMajorVersion linux_openssl provider_4_2_1 ("4" +:+ "." +:+ "2" +:+ "." +:+ "99-rc0") =
     isSameMajorVersion linux_openssl provider_4_2_1 "4.2.1".
Proof.
  assert (Hp : starts_with_version_pattern "4.2.1" "4" "2").
  { repeat split; try discriminate. exists "1". reflexivity. }
  split; [exact Hp|].
  apply (isSameMajorVersion_ignores_suffix linux_openssl provider_4_2_1 "4.2.1" "4" "2" "99-rc0" Hp).
Defined.

(** X17: leading zeros do not count: when a text starts with the pattern,
    writing a zero in front of its major and of its minor number does not
    change the answer. *)
Theorem isSameMajorVersion_leading_zeros :
  forall (cfg : BuildConfig) (self : VersionInfoInterface) (d1 d2 rest : string),
    starts_with_version_pattern (d1 +:+ "." +:+ d2 +:+ "." +:+ rest) d1 d2 ->
    isSameMajorVersion cfg self
      (String "0" d1 +:+ "." +:+ String "0" d2 +:+ "." +:+ rest) =
    isSameMajorVersion cfg self (d1 +:+ "." +:+ d2 +:+ "." +:+ rest).
Proof.
  intros cfg self d1 d2 rest Hp.
  pose proof (pattern_leading_zeros d1 d2 rest Hp) as Hz.
  rewrite !isSameMajorVersion_spec.
  rewrite (version_prefix_complete _ _ _ Hp), (version_prefix_complete _ _ _ Hz).
  now rewrite !decimal_leading_zero.
Qed.

Lemma isSameMajorVersion_leading_zeros_witness :
  starts_with_version_pattern ("4" +:+ "." +:+ "2" +:+ "." +:+ "1") "4" "2"
  /\ isSameMajorVersion linux_openssl provider_4_2_1 "04.02.1" =
     isSameMajorVersion linux_openssl provider_4_2_1 "4.2.1".
Proof.
  assert (Hp : starts_with_version_pattern ("4" +:+ "." +:+ "2" +:+ "." +:+ "1") "4" "2").
  { repeat split; try discriminate. exists "1". reflexivity. }
  split; [exact Hp|].
  apply (isSameMajorVersion_leading_zeros linux_openssl provider_4_2_1 "4" "2" "1" Hp).
Defined.

(** X18: a text that is empty or does not begin with a decimal digit (a
    leading space, sign or letter) is never the same major version: the
    pattern is only tried at the start of the text. *)
Theorem isSameMajorVersion_not_digit_first :
  forall (cfg : BuildConfig) (self : VersionInfoInterface) (otherVersion : string),
    match otherVersion with
    | String c _ => isdigit c = false
    | EmptyString => True
    end ->
    isSameMajorVersion cfg self otherVersion = false.
Proof.
  intros cfg self s H.
  now rewrite isSameMajorVersion_spec, (version_prefix_not_digit s H).
Qed.

Lemma isSameMajorVersion_not_digit_first_witness :
  match "v4.2.1" with
  | String c _ => isdigit c = false
  | EmptyString => True
  end
  /\ isSameMajorVersion linux_openssl provider_4_2_1 "v4.2.1" = false.
Proof.
  assert (H : match "v4.2.1" with
              | String c _ => isdigit c = false
              | EmptyString => True
              end) by reflexivity.
  split; [exact H|].
  apply (isSameMajorVersion_not_digit_first linux_openssl provider_4_2_1 "v4.2.1" H).
Defined.

(** X19: the answer does not depend on the build: neither the width of
    [long] nor any other build setting changes what [isSameMajorVersion]
    returns for a provider and a text. *)
Theorem isSameMajorVersion_build_independent :
  forall (cfg cfg' : BuildConfig) (self : VersionInfoInterface) (otherVersion : string),
    isSameMajorVersion cfg self otherVersion = isSameMajorVersion cfg' self otherVersion.
Proof.
  intros cfg cfg' self s. now rewrite !isSameMajorVersion_spec.
Qed.
